(** * gbuild: a shallow embedding of the package manager scripts

    The development follows the three scripts of the repository:
    - [gbuild1.0.py]: sandbox, artifact verification, the /etc reconciler
      ([EtcManager]) and the stage pipeline ([build_package], [build_stage]);
    - [gbuild.py]: the [Gerenciador] front end with its in-memory database;
    - [version-tracker.py]: the [VersionTracker].

    Python dictionaries whose iteration order is observable are ordered
    association lists ([PyDict]); file trees are finite maps from relative
    paths to contents.  Code that can raise runs in a state-and-exception
    monad ([prog]). *)

From Stdlib Require Import Ascii String List ZArith Lia Bool QArith_base.
From stdpp Require Import gmap strings list pretty.

Open Scope string_scope.
Open Scope list_scope.
Open Scope nat_scope.

(** ** Python text primitives *)

Module Py.

Definition LF : ascii := "010"%char.
Definition CR : ascii := "013"%char.
Definition SP : ascii := " "%char.
Definition nl : string := String LF "".

(** [str.isspace] for one character, code points below 256. *)
Definition isspace (c : ascii) : bool :=
  let n := nat_of_ascii c in
  (((9 <=? n) && (n <=? 13)) || ((28 <=? n) && (n <=? 32))
   || (n =? 133) || (n =? 160))%nat.

Fixpoint lstrip (s : string) : string :=
  match s with
  | "" => ""
  | String c s' => if isspace c then lstrip s' else s
  end.

Fixpoint rstrip (s : string) : string :=
  match s with
  | "" => ""
  | String c s' =>
      match rstrip s' with
      | "" => if isspace c then "" else String c ""
      | r => String c r
      end
  end.

(** [s.strip()] *)
Definition strip (s : string) : string := rstrip (lstrip s).

(** [s.split()]: the maximal runs of non-whitespace characters. *)
Fixpoint split (s : string) : list string :=
  match s with
  | "" => []
  | String c s' =>
      if isspace c then split s'
      else match s' with
           | "" => [String c ""]
           | String c' _ =>
               if isspace c' then String c "" :: split s'
               else match split s' with
                    | w :: ws => String c w :: ws
                    | [] => [String c ""]
                    end
           end
  end.

(** [s.endswith(suffix)] *)
Definition endswith (s suffix : string) : bool :=
  let n := String.length s in
  let k := String.length suffix in
  (k <=? n)%nat && String.eqb (substring (n - k) k s) suffix.

(** [s.endswith((x, y, ...))] *)
Definition endswith_any (s : string) (suffixes : list string) : bool :=
  existsb (endswith s) suffixes.

(** Text-mode reading with the default [newline=None]: carriage return,
    alone or followed by a line feed, is read as a line feed. *)
Fixpoint universal_newlines (s : string) : string :=
  match s with
  | "" => ""
  | String c s' =>
      if Ascii.eqb c CR then
        match s' with
        | String c' s'' =>
            if Ascii.eqb c' LF then String LF (universal_newlines s'')
            else String LF (universal_newlines s')
        | "" => String LF ""
        end
      else String c (universal_newlines s')
  end.

(** Splitting a text into lines, each keeping its line feed. *)
Fixpoint keepends (s : string) : list string :=
  match s with
  | "" => []
  | String c s' =>
      if Ascii.eqb c LF then String c "" :: keepends s'
      else match keepends s' with
           | l :: ls => String c l :: ls
           | [] => [String c ""]
           end
  end.

(** [open(path).readlines()], also the lines of [for line in f]. *)
Definition readlines (content : string) : list string :=
  keepends (universal_newlines content).

(** [f.writelines(lines)] on a file opened with ["w"]. *)
Definition writelines (lines : list string) : string :=
  fold_right String.append "" lines.

(** [s[:n]] and [s[n:]] *)
Definition slice_to (n : nat) (s : string) : string := substring 0 n s.
Fixpoint slice_from (n : nat) (s : string) : string :=
  match n, s with
  | S n', String _ s' => slice_from n' s'
  | _, _ => s
  end.

(** [str(x)] of an optional string: [None] prints as the word None. *)
Definition str_opt (o : option string) : string := default "None" o.

(** No character of [s] is whitespace. *)
Fixpoint no_space (s : string) : Prop :=
  match s with
  | "" => True
  | String c s' => isspace c = false /\ no_space s'
  end.

End Py.

(** ** Exceptions and the state-and-exception monad *)

Inductive exn : Type :=
| KeyError (key : string)
| IndexError
| FileNotFoundError (path : string)
| CalledProcessError (argv : list string)
| ReadError (path : string).

Inductive outcome (A : Type) : Type :=
| Ok (a : A)
| Raise (e : exn).
Arguments Ok {A} a.
Arguments Raise {A} e.

Definition prog (S A : Type) : Type := S -> outcome A * S.

Definition ret {S A} (a : A) : prog S A := fun s => (Ok a, s).
Definition raise {S A} (e : exn) : prog S A := fun s => (Raise e, s).
Definition bind {S A B} (m : prog S A) (k : A -> prog S B) : prog S B :=
  fun s => match m s with
           | (Ok a, s') => k a s'
           | (Raise e, s') => (Raise e, s')
           end.
Definition modify {S} (f : S -> S) : prog S unit := fun s => (Ok tt, f s).
Definition gets {S A} (f : S -> A) : prog S A := fun s => (Ok (f s), s).

Declare Scope prog_scope.
Delimit Scope prog_scope with prog.
Notation "'do' x <- m ; k" := (bind m (fun x => k))
  (at level 10, x name, m at level 100, k at level 200) : prog_scope.
Notation "m ;; k" := (bind m (fun _ => k))
  (at level 100, k at level 200, right associativity) : prog_scope.

(** [for x in xs: body x], stopping at the first exception. *)
Fixpoint for_each {S A} (xs : list A) (body : A -> prog S unit) : prog S unit :=
  match xs with
  | [] => ret tt
  | x :: xs' => bind (body x) (fun _ => for_each xs' body)
  end.

(** [m] always returns, and relates the states before and after by [R]. *)
Definition returns {S A} (R : S -> S -> Prop) (m : prog S A) : Prop :=
  forall s, exists a s', m s = (Ok a, s') /\ R s s'.

(** ** Insertion-ordered dictionaries with string keys *)

Module PyDict.
Section dict.
Context {V : Type}.

Definition dict : Type := list (string * V).

(** [d.get(k)] *)
Fixpoint dget (k : string) (d : dict) : option V :=
  match d with
  | [] => None
  | (k', v) :: d' => if String.eqb k k' then Some v else dget k d'
  end.

(** [d[k] = v]: an existing key keeps its position. *)
Fixpoint dset (k : string) (v : V) (d : dict) : dict :=
  match d with
  | [] => [(k, v)]
  | (k', v') :: d' =>
      if String.eqb k k' then (k, v) :: d' else (k', v') :: dset k v d'
  end.

(** [k in d] *)
Definition dmem (k : string) (d : dict) : bool :=
  match dget k d with Some _ => true | None => false end.

Definition keys (d : dict) : list string := map fst d.

End dict.
Arguments dict : clear implicits.
End PyDict.

(** ** The parts of Python's difflib used by the reconciler

    [SequenceMatcher(None, a, b)] over lists of lines, with the default
    [autojunk=True] and no junk predicate, [unified_diff] with its default
    three lines of context, and [restore]. *)

Module Difflib.
Import Py.

Section matcher.
Variables a b : list string.

Definition count_occ_str (x : string) (l : list string) : nat :=
  length (filter (fun y => y = x) l).

(** [__chain_b]: an element is popular, and dropped from [b2j], when [b] has
    at least 200 elements and it fills more than 1% + 1 of them. *)
Definition popular (x : string) : bool :=
  let n := length b in
  (200 <=? n)%nat && (n / 100 + 1 <? count_occ_str x b)%nat.

Fixpoint indices_from (j : nat) (x : string) (l : list string) : list nat :=
  match l with
  | [] => []
  | y :: l' =>
      if String.eqb x y then j :: indices_from (S j) x l'
      else indices_from (S j) x l'
  end.

(** [b2j.get(x, [])] *)
Definition b2j (x : string) : list nat :=
  if popular x then [] else indices_from 0 x b.

(** [isbjunk]: the junk set stays empty without a junk predicate. *)
Definition isbjunk (x : string) : bool := false.

Definition best : Type := (nat * nat * nat)%type.

(** The inner [for j in b2j.get(a[i], nothing)] of [find_longest_match]. *)
Fixpoint scan_row (js : list nat) (i blo bhi : nat)
    (j2len newj2len : gmap nat nat) (bst : best) : gmap nat nat * best :=
  match js with
  | [] => (newj2len, bst)
  | j :: js' =>
      if (j <? blo)%nat then scan_row js' i blo bhi j2len newj2len bst
      else if (bhi <=? j)%nat then (newj2len, bst)
      else
        let k := (match j with
                  | O => 0
                  | S j' => default 0 (j2len !! j')
                  end + 1)%nat in
        let '(besti, bestj, bestsize) := bst in
        scan_row js' i blo bhi j2len (<[j := k]> newj2len)
          (if (bestsize <? k)%nat then (i + 1 - k, j + 1 - k, k)%nat else bst)
  end.

(** The outer [for i in range(alo, ahi)]. *)
Fixpoint scan_rows (rows : list nat) (blo bhi : nat)
    (j2len : gmap nat nat) (bst : best) : best :=
  match rows with
  | [] => bst
  | i :: rows' =>
      let '(newj2len, bst') :=
        scan_row (default [] (b2j <$> a !! i)) i blo bhi j2len ∅ bst in
      scan_rows rows' blo bhi newj2len bst'
  end.

Definition same_at (i j : nat) : bool :=
  match a !! i, b !! j with
  | Some x, Some y => String.eqb x y
  | _, _ => false
  end.

Definition junk_at (j : nat) : bool :=
  match b !! j with Some y => isbjunk y | None => false end.

(** [while besti > alo and bestj > blo and <junk test> and
    a[besti-1] == b[bestj-1]]; [want] is the value asked of [isbjunk]. *)
Fixpoint extend_left (fuel : nat) (want : bool) (alo blo : nat) (bst : best)
  : best :=
  let '(besti, bestj, bestsize) := bst in
  match fuel with
  | O => bst
  | S fuel' =>
      if (alo <? besti)%nat && (blo <? bestj)%nat
         && Bool.eqb (junk_at (bestj - 1)) want
         && same_at (besti - 1) (bestj - 1)
      then extend_left fuel' want alo blo
             (besti - 1, bestj - 1, bestsize + 1)%nat
      else bst
  end.

(** [while besti+bestsize < ahi and bestj+bestsize < bhi and <junk test> and
    a[besti+bestsize] == b[bestj+bestsize]] *)
Fixpoint extend_right (fuel : nat) (want : bool) (ahi bhi : nat) (bst : best)
  : best :=
  let '(besti, bestj, bestsize) := bst in
  match fuel with
  | O => bst
  | S fuel' =>
      if (besti + bestsize <? ahi)%nat && (bestj + bestsize <? bhi)%nat
         && Bool.eqb (junk_at (bestj + bestsize)) want
         && same_at (besti + bestsize) (bestj + bestsize)
      then extend_right fuel' want ahi bhi (besti, bestj, bestsize + 1)%nat
      else bst
  end.

(** [find_longest_match(alo, ahi, blo, bhi)].  Each loop moves an index by
    one inside [alo, ahi), so [ahi] steps of fuel cover it. *)
Definition find_longest_match (alo ahi blo bhi : nat) : best :=
  let bst := scan_rows (seq alo (ahi - alo)) blo bhi ∅ (alo, blo, 0%nat) in
  let bst := extend_left ahi false alo blo bst in
  let bst := extend_right ahi false ahi bhi bst in
  let bst := extend_left ahi true alo blo bst in
  extend_right ahi true ahi bhi bst.

(** The blocks found in one region, already in the order that
    [matching_blocks.sort()] gives: those of the part to the left of the
    longest match, the match, those of the part to its right.  A region
    handed down has a strictly shorter range of [a], which [fuel] bounds. *)
Fixpoint region_blocks (fuel : nat) (alo ahi blo bhi : nat) : list best :=
  match fuel with
  | O => []
  | S fuel' =>
      let '(i, j, k) := find_longest_match alo ahi blo bhi in
      if (k =? 0)%nat then []
      else
        (if (alo <? i)%nat && (blo <? j)%nat
         then region_blocks fuel' alo i blo j else [])
        ++ [(i, j, k)]
        ++ (if (i + k <? ahi)%nat && (j + k <? bhi)%nat
            then region_blocks fuel' (i + k) ahi (j + k) bhi else [])
  end.

(** The loop that merges adjacent blocks. *)
Fixpoint collapse (blocks : list best) (cur : best) : list best :=
  let '(i1, j1, k1) := cur in
  match blocks with
  | [] => if (k1 =? 0)%nat then [] else [cur]
  | (i2, j2, k2) :: rest =>
      if (i1 + k1 =? i2)%nat && (j1 + k1 =? j2)%nat
      then collapse rest (i1, j1, k1 + k2)%nat
      else (if (k1 =? 0)%nat then [] else [cur]) ++ collapse rest (i2, j2, k2)
  end.

Definition get_matching_blocks : list best :=
  let la := length a in
  let lb := length b in
  collapse (region_blocks (S la) 0 la 0 lb) (0, 0, 0)%nat ++ [(la, lb, 0%nat)].

Inductive tag : Type := Replace | Delete | Insert | Equal.

Definition is_equal (t : tag) : bool :=
  match t with Equal => true | _ => false end.

Definition opcode : Type := (tag * nat * nat * nat * nat)%type.

Fixpoint opcodes_loop (blocks : list best) (i j : nat) : list opcode :=
  match blocks with
  | [] => []
  | (ai, bj, size) :: rest =>
      (if (i <? ai)%nat && (j <? bj)%nat then [(Replace, i, ai, j, bj)]
       else if (i <? ai)%nat then [(Delete, i, ai, j, bj)]
       else if (j <? bj)%nat then [(Insert, i, ai, j, bj)]
       else [])
      ++ (if (size =? 0)%nat then []
          else [(Equal, ai, ai + size, bj, bj + size)%nat])
      ++ opcodes_loop rest (ai + size) (bj + size)
  end.

Definition get_opcodes : list opcode := opcodes_loop get_matching_blocks 0 0.

Definition fix_first (n : nat) (codes : list opcode) : list opcode :=
  match codes with
  | (Equal, i1, i2, j1, j2) :: rest =>
      (Equal, Nat.max i1 (i2 - n), i2, Nat.max j1 (j2 - n), j2) :: rest
  | _ => codes
  end.

Fixpoint fix_last (n : nat) (codes : list opcode) : list opcode :=
  match codes with
  | [] => []
  | [(Equal, i1, i2, j1, j2)] =>
      [(Equal, i1, Nat.min i2 (i1 + n), j1, Nat.min j2 (j1 + n))]
  | c :: rest => c :: fix_last n rest
  end.

Fixpoint group_loop (n : nat) (codes : list opcode) (group : list opcode)
  : list (list opcode) :=
  match codes with
  | [] =>
      match group with
      | [] => []
      | [(Equal, _, _, _, _)] => []
      | _ => [group]
      end
  | (t, i1, i2, j1, j2) :: rest =>
      if is_equal t && (n + n <? i2 - i1)%nat then
        (group ++ [(t, i1, Nat.min i2 (i1 + n), j1, Nat.min j2 (j1 + n))])
        :: group_loop n rest
             [(t, Nat.max i1 (i2 - n), i2, Nat.max j1 (j2 - n), j2)]
      else group_loop n rest (group ++ [(t, i1, i2, j1, j2)])
  end.

Definition get_grouped_opcodes (n : nat) : list (list opcode) :=
  let codes := get_opcodes in
  let codes := match codes with
               | [] => [(Equal, 0, 1, 0, 1)%nat]
               | _ => codes
               end in
  group_loop n (fix_last n (fix_first n codes)) [].

(** [_format_range_unified] *)
Definition format_range_unified (start stop : nat) : string :=
  let beginning := (start + 1)%nat in
  let len := (stop - start)%nat in
  if (len =? 1)%nat then pretty beginning
  else
    let beginning := if (len =? 0)%nat then (beginning - 1)%nat else beginning in
    pretty beginning +:+ "," +:+ pretty len.

(** [l[i1:i2]] *)
Definition slice (l : list string) (i1 i2 : nat) : list string :=
  take (i2 - i1) (drop i1 l).

Definition opcode_lines (c : opcode) : list string :=
  let '(t, i1, i2, j1, j2) := c in
  match t with
  | Equal => map (String SP) (slice a i1 i2)
  | Replace =>
      map (String "-"%char) (slice a i1 i2)
      ++ map (String "+"%char) (slice b j1 j2)
  | Delete => map (String "-"%char) (slice a i1 i2)
  | Insert => map (String "+"%char) (slice b j1 j2)
  end.

Definition group_lines (group : list opcode) : list string :=
  match group, last group with
  | (_, i1, _, j1, _) :: _, Some (_, _, i2, _, j2) =>
      ("@@ -" +:+ format_range_unified i1 i2 +:+ " +"
       +:+ format_range_unified j1 j2 +:+ " @@" +:+ nl)
      :: concat (map opcode_lines group)
  | _, _ => []
  end.

(** [unified_diff(a, b, fromfile, tofile)] with the remaining defaults. *)
Definition unified_diff (fromfile tofile : string) : list string :=
  match get_grouped_opcodes 3 with
  | [] => []
  | groups =>
      ("--- " +:+ fromfile +:+ nl) :: ("+++ " +:+ tofile +:+ nl)
      :: concat (map group_lines groups)
  end.

End matcher.


(** [restore(delta, which)] for [which] 1 or 2: the lines of [delta] whose
    first two characters are two blanks or the tag, without them. *)
Definition restore_tag (which : nat) : string :=
  match which with 1%nat => "- " | _ => "+ " end.

Definition restore (delta : list string) (which : nat) : list string :=
  map (slice_from 2)
    (filter (fun line =>
               let p := slice_to 2 line in
               p = "  " \/ p = restore_tag which) delta).

End Difflib.

(** ** gbuild1.0.py: the /etc reconciler *)

Module Etc.
Import Py PyDict.

Definition BASE_DIR : string := "/mnt".
Definition ETC_NEW_DIR : string := "/var/lib/pm/etc-new".
Definition ETC_BACKUP_DIR : string := "/var/lib/pm/etc-backup".

(** [os.path.join] of a directory and a relative path. *)
Definition path_join (dir rel : string) : string := dir +:+ "/" +:+ rel.

(** What an [EtcManager] works on.  Files are keyed by their path relative to
    the root of their tree; [etc_new] lists the new tree in the order in which
    [os.walk] yields it; a backup lives under its timestamp directory at the
    same relative path.  [clock k] is the timestamp that the [k]-th call of
    [backup_file] reads, already formatted. *)
Record etc_state : Type := mkEtc {
  ETC_DIR : string;
  live : gmap string string;
  etc_new : dict string;
  backups : gmap (string * string) string;
  clock : nat -> string;
  ticks : nat;
  logs : list (string * string)
}.

(** [EtcManager(stage_dir)] over given trees. *)
Definition EtcManager (stage_dir : string) (live : gmap string string)
    (new : dict string) (backups : gmap (string * string) string)
    (clock : nat -> string) : etc_state :=
  mkEtc (path_join (path_join BASE_DIR stage_dir) "etc") live new backups
        clock 0 [].

(** [log(msg, level)]: the line appended to the log, without its time. *)
Definition log (msg level : string) : prog etc_state unit :=
  modify (fun st => mkEtc (ETC_DIR st) (live st) (etc_new st) (backups st)
                          (clock st) (ticks st) (logs st ++ [(level, msg)])).

Definition set_live (l : gmap string string) : prog etc_state unit :=
  modify (fun st => mkEtc (ETC_DIR st) l (etc_new st) (backups st)
                          (clock st) (ticks st) (logs st)).

(** [datetime.now().strftime(...)] in [backup_file]. *)
Definition now : prog etc_state string :=
  fun st => (Ok (clock st (ticks st)),
             mkEtc (ETC_DIR st) (live st) (etc_new st) (backups st)
                   (clock st) (S (ticks st)) (logs st)).

Definition read_live (filename : string) : prog etc_state string :=
  fun st => match live st !! filename with
            | Some c => (Ok c, st)
            | None => (Raise (FileNotFoundError
                                (path_join (ETC_DIR st) filename)), st)
            end.

Definition read_new (filename : string) : prog etc_state string :=
  fun st => match dget filename (etc_new st) with
            | Some c => (Ok c, st)
            | None => (Raise (FileNotFoundError
                                (path_join ETC_NEW_DIR filename)), st)
            end.

Definition write_live (filename content : string) : prog etc_state unit :=
  fun st => set_live (<[filename := content]> (live st)) st.

(** [os.path.exists(local_path)] *)
Definition exists_live (filename : string) : prog etc_state bool :=
  gets (fun st => bool_decide (is_Some (live st !! filename))).

(** [backup_file(path)] for the live file [filename]. *)
Definition backup_file (filename : string) : prog etc_state unit :=
  (do timestamp <- now;
   do content <- read_live filename;
   modify (fun st => mkEtc (ETC_DIR st) (live st) (etc_new st)
                       (<[(timestamp, filename) := content]> (backups st))
                       (clock st) (ticks st) (logs st)) ;;
   do dir <- gets ETC_DIR;
   log ("Backup created: " +:+ path_join dir filename) "OK")%prog.

(** The state right after [backup_file] saved [content] for [filename]. *)
Definition backed_up (filename content : string) (st : etc_state) : etc_state :=
  mkEtc (ETC_DIR st) (live st) (etc_new st)
        (<[(clock st (ticks st), filename) := content]> (backups st))
        (clock st) (S (ticks st))
        (logs st ++ [("OK", "Backup created: " +:+ path_join (ETC_DIR st) filename)]).

(** The content that the merge branch writes for a live text [local] and a
    new text [new]. *)
Definition merged_content (local new : string) : string :=
  writelines
    (Difflib.restore
       (Difflib.unified_diff (readlines local) (readlines new) "local" "new")
       1).

(** What no operation of the manager changes. *)
Definition same_static (s s' : etc_state) : Prop :=
  ETC_DIR s' = ETC_DIR s /\ etc_new s' = etc_new s /\ clock s' = clock s.

(** The file [g] and its backups are the same in [s] and [s']. *)
Definition untouched (g : string) (s s' : etc_state) : Prop :=
  live s' !! g = live s !! g /\
  forall ts, backups s' !! (ts, g) = backups s !! (ts, g).

(** [merge_files(local, new)] *)
Definition merge_files (filename : string) : prog etc_state (list string) :=
  (do local <- read_live filename;
   do new <- read_new filename;
   ret (Difflib.unified_diff (readlines local) (readlines new)
          "local" "new"))%prog.

(** [shutil.copy2(new_path, local_path)] *)
Definition copy_new_to_live (filename : string) : prog etc_state unit :=
  (do c <- read_new filename; write_live filename c)%prog.

(** [filecmp.cmp(local_path, new_path, shallow=False)] *)
Definition filecmp (filename : string) : prog etc_state bool :=
  (do local <- read_live filename;
   do new <- read_new filename;
   ret (String.eqb local new))%prog.

(** The rule chosen in [process_file]. *)
Definition select_rule (filename : string) : string :=
  if endswith_any filename [".conf"; ".cfg"] then "merge" else "keep-local".

(** The [if rule == ...] chain of [process_file]. *)
Definition apply_rule (rule filename : string) (auto : bool)
  : prog etc_state unit :=
  (if String.eqb rule "keep-local" then
     log ("Kept local: " +:+ filename) "OK"
   else if String.eqb rule "replace" then
     copy_new_to_live filename ;;
     log ("Replaced: " +:+ filename) "OK"
   else if String.eqb rule "merge" then
     do merged_diff <- merge_files filename;
     if negb (bool_decide (merged_diff = [])) && auto then
       let merged_lines := Difflib.restore merged_diff 1 in
       write_live filename (writelines merged_lines) ;;
       log ("Merged automatically: " +:+ filename) "OK"
     else ret tt
   else ret tt)%prog.

(** [process_file(filename, auto)] *)
Definition process_file (filename : string) (auto : bool)
  : prog etc_state unit :=
  (do present <- exists_live filename;
   if negb present then
     copy_new_to_live filename ;;
     log ("Installed new config: " +:+ filename) "OK"
   else
     do same <- filecmp filename;
     if same then ret tt
     else
       backup_file filename ;;
       apply_rule (select_rule filename) filename auto)%prog.

(** [process_all(auto)] *)
Definition process_all (auto : bool) : prog etc_state unit :=
  fun st => for_each (keys (etc_new st))
                     (fun rel_path => process_file rel_path auto) st.


(** The live tree holds every file of the new tree with the same content. *)
Definition in_sync (st : etc_state) : Prop :=
  forall f c, dget f (etc_new st) = Some c -> live st !! f = Some c.

(** A clock for the examples, one second per reading. *)
Definition demo_clock (k : nat) : string := "20240101_00000" +:+ pretty k.

(** A live [app.conf] holding [a=1], shipped anew holding [a=2]. *)
Definition merge_demo : etc_state :=
  EtcManager "stage3" {[ "app.conf" := "a=1" +:+ nl ]}
    [("app.conf", "a=2" +:+ nl)] ∅ demo_clock.

(** The same with an indented second line that both versions share. *)
Definition merge_demo_indented : etc_state :=
  EtcManager "stage3"
    {[ "app.conf" := "a=1" +:+ nl +:+ "  indented" +:+ nl ]}
    [("app.conf", "a=2" +:+ nl +:+ "  indented" +:+ nl)] ∅ demo_clock.

(** A live [motd], kept local, that differs from the shipped one. *)
Definition keep_demo : etc_state :=
  EtcManager "stage3" {[ "motd" := "hi" +:+ nl ]}
    [("motd", "hello" +:+ nl)] ∅ demo_clock.

(** A live tree with a kept-local file, a merged file and a file that the
    new tree does not ship, against a new tree that also ships a file the
    live tree lacks. *)
Definition mixed_demo : etc_state :=
  EtcManager "stage3"
    {[ "motd" := "hi" +:+ nl; "app.conf" := "a=1" +:+ nl;
       "hosts" := "127.0.0.1 localhost" +:+ nl ]}
    [("motd", "hello" +:+ nl); ("app.conf", "a=1" +:+ nl);
     ("issue", "welcome" +:+ nl)]
    ∅ demo_clock.

End Etc.

(** ** gbuild1.0.py: sandbox, artifact checks and the stage pipeline *)

Module Build.
Import Py PyDict.

Definition SANDBOX_DIR : string := "/tmp/pm-sandbox".

(** A recipe dictionary; [None] is an absent key. *)
Record recipe : Type := mkRecipe {
  urls : option (dict string);
  sha256 : option string;
  dependencias_build : option (list string);
  patches : option (list string);
  tipo_build : option string;
  configure_opts : option (list string)
}.

(** What the script observes of the outside: the digest function, the
    transport, the archive reader and the exit status of the commands it
    spawns.  The number passed to [curl] and [exit_ok] counts the external
    actions performed so far, so that an answer may change over time. *)
Record env : Type := mkEnv {
  hexdigest : string -> string;
  curl : nat -> string -> option string;
  tar_members : string -> option (list (string * string));
  exit_ok : nat -> list string -> string -> bool
}.

(** The trace: entries of [build_package], spawned processes with their
    working directory, archive extractions and removals of the sandbox. *)
Inductive event : Type :=
| Call (package : string)
| Exec (argv : list string) (cwd : option string)
| Extract (tar_path dest : string)
| Rmtree (path : string).

(** The machine: the sandbox tree ([None] while [SANDBOX_DIR] does not exist),
    the live /etc tree of each stage, the new /etc tree, the backups, the
    persisted package database, the log and the trace. *)
Record world : Type := mkWorld {
  sandbox : option (gmap string string);
  stage_etc : gmap string (gmap string string);
  etc_new : dict string;
  etc_backups : gmap (string * string) string;
  clock : nat -> string;
  ticks : nat;
  package_db : option string;
  logs : list (string * string);
  events : list event
}.

Definition set_sandbox (sb : option (gmap string string)) (w : world) : world :=
  mkWorld sb (stage_etc w) (etc_new w) (etc_backups w) (clock w) (ticks w)
          (package_db w) (logs w) (events w).

Definition add_log (msg level : string) (w : world) : world :=
  mkWorld (sandbox w) (stage_etc w) (etc_new w) (etc_backups w) (clock w)
          (ticks w) (package_db w) (logs w ++ [(level, msg)]) (events w).

Definition add_event (e : event) (w : world) : world :=
  mkWorld (sandbox w) (stage_etc w) (etc_new w) (etc_backups w) (clock w)
          (ticks w) (package_db w) (logs w) (events w ++ [e]).

Definition log (msg level : string) : prog world unit := modify (add_log msg level).
Definition emit (e : event) : prog world unit := modify (add_event e).

(** [prepare_sandbox] *)
Definition prepare_sandbox : prog world unit :=
  (modify (fun w => set_sandbox (Some (default ∅ (sandbox w))) w) ;;
   log "Sandbox prepared" "OK")%prog.

(** [clean_sandbox] *)
Definition clean_sandbox : prog world unit :=
  (do present <- gets (fun w => bool_decide (is_Some (sandbox w)));
   (if present then
      emit (Rmtree SANDBOX_DIR) ;; modify (set_sandbox None)
    else ret tt) ;;
   log "Sandbox cleaned" "OK")%prog.

(** Writing [content] at [rel], a path relative to [SANDBOX_DIR]. *)
Definition write_sandbox (rel content : string) : prog world unit :=
  modify (fun w => set_sandbox (Some (<[rel := content]> (default ∅ (sandbox w)))) w).

Definition read_sandbox (rel : string) : prog world string :=
  fun w => match sandbox w ≫= (fun files => files !! rel) with
           | Some c => (Ok c, w)
           | None => (Raise (FileNotFoundError
                               (Etc.path_join SANDBOX_DIR rel)), w)
           end.

Section with_env.
Variable E : env.

(** [subprocess.run(argv, cwd=cwd, check=True)] *)
Definition run (argv : list string) (cwd : option string) : prog world unit :=
  (do k <- gets (fun w => length (events w));
   emit (Exec argv cwd) ;;
   if exit_ok E k argv (default "" cwd) then ret tt
   else raise (CalledProcessError argv))%prog.

(** [download(url, dest)], [dest] being [SANDBOX_DIR/rel]. *)
Definition download (url rel : string) : prog world unit :=
  let dest := Etc.path_join SANDBOX_DIR rel in
  let argv := ["curl"; "-L"; "-o"; dest; url] in
  (log ("Downloading " +:+ url +:+ " -> " +:+ dest) "OK" ;;
   do k <- gets (fun w => length (events w));
   emit (Exec argv None) ;;
   match curl E k url with
   | Some content => write_sandbox rel content
   | None => raise (CalledProcessError argv)
   end)%prog.

(** [verify_sha256(path, sha256sum)] *)
Definition verify_sha256 (rel sha256sum : string) : prog world bool :=
  (do content <- read_sandbox rel;
   let valid := String.eqb (hexdigest E content) sha256sum in
   log ("SHA256 " +:+ (if valid then "valid" else "invalid") +:+ " for "
        +:+ Etc.path_join SANDBOX_DIR rel) "OK" ;;
   ret valid)%prog.

(** [extract_tarball(tar_path, dest)], both below [SANDBOX_DIR]. *)
Definition extract_tarball (tar_rel dest_rel : string) : prog world unit :=
  let tar_path := Etc.path_join SANDBOX_DIR tar_rel in
  let dest := Etc.path_join SANDBOX_DIR dest_rel in
  (log ("Extracting " +:+ tar_path +:+ " -> " +:+ dest) "OK" ;;
   do content <- read_sandbox tar_rel;
   emit (Extract tar_path dest) ;;
   match tar_members E content with
   | Some members =>
       for_each members
         (fun m => write_sandbox (Etc.path_join dest_rel (fst m)) (snd m))
   | None => raise (ReadError tar_path)
   end)%prog.

(** [apply_patch(patch_path, work_dir)] *)
Definition apply_patch (patch_path work_dir : string) : prog world unit :=
  (log ("Applying patch " +:+ patch_path) "OK" ;;
   run ["patch"; "-p1"; "-i"; patch_path] (Some work_dir))%prog.

(** [update_etc(stage_dir)]: an [EtcManager] for the stage runs
    [process_all(auto=True)] on the trees of the machine. *)
Definition update_etc (stage_dir : string) : prog world unit :=
  fun w =>
    let st := Etc.mkEtc
                (Etc.path_join (Etc.path_join Etc.BASE_DIR stage_dir) "etc")
                (default ∅ (stage_etc w !! stage_dir)) (etc_new w)
                (etc_backups w) (clock w) (ticks w) (logs w) in
    let '(r, st') := Etc.process_all true st in
    (r, mkWorld (sandbox w) (<[stage_dir := Etc.live st']> (stage_etc w))
                (etc_new w) (Etc.backups st') (clock w) (Etc.ticks st')
                (package_db w) (Etc.logs st') (events w)).

(** [run_hooks(stage, hook_type, package)] *)
Definition run_hooks (stage hook_type package : string) : prog world unit :=
  log ("Running hook " +:+ hook_type +:+ " for " +:+ package +:+ " in "
       +:+ stage) "OK".

(** [d[k]] *)
Definition getitem {V} (k : string) (d : dict V) : prog world V :=
  match dget k d with
  | Some v => ret v
  | None => raise (KeyError k)
  end.

Definition getfield {V} (k : string) (o : option V) : prog world V :=
  match o with
  | Some v => ret v
  | None => raise (KeyError k)
  end.

(** The dispatch on [tipo_build] in [build_package]. *)
Definition build_steps (stage : string) (r : recipe) (work_dir : string)
  : prog world unit :=
  let build_type := default "autotools" (tipo_build r) in
  let root := Etc.BASE_DIR +:+ "/" +:+ stage in
  (if String.eqb build_type "autotools" then
     run ("./configure" :: default [] (configure_opts r)) (Some work_dir) ;;
     run ["make"; "-j4"] (Some work_dir) ;;
     run ["make"; "install"; "DESTDIR=" +:+ root] (Some work_dir)
   else if String.eqb build_type "python" then
     run ["python3"; "setup.py"; "install"; "--root=" +:+ root] (Some work_dir)
   else if String.eqb build_type "meson" then
     let build_dir := Etc.path_join work_dir "build" in
     run ["meson"; ".."] (Some build_dir) ;;
     run ["ninja"; "-C"; build_dir] (Some build_dir) ;;
     run ["ninja"; "-C"; build_dir; "install"] (Some build_dir)
   else if String.eqb build_type "rust" then
     run ["cargo"; "install"; "--root"; root] (Some work_dir)
   else ret tt)%prog.

(** The part of [build_package] after the checksum test. *)
Definition build_verified (stage package : string) (r : recipe)
    (tarball_rel : string) : prog world unit :=
  let work_dir := Etc.path_join SANDBOX_DIR package in
  (extract_tarball tarball_rel package ;;
   for_each (default [] (patches r)) (fun patch => apply_patch patch work_dir) ;;
   build_steps stage r work_dir ;;
   run_hooks stage "post_install" package ;;
   update_etc stage ;;
   clean_sandbox)%prog.

(** [build_package(stage, package, recipe)] *)
Definition build_package (stage package : string) (r : recipe)
  : prog world unit :=
  let tarball_rel := Etc.path_join package (package +:+ ".tar.xz") in
  (emit (Call package) ;;
   prepare_sandbox ;;
   do u <- getfield "urls" (urls r);
   do url <- getitem "tarball" u;
   download url tarball_rel ;;
   do sum <- getfield "sha256" (sha256 r);
   do valid <- verify_sha256 tarball_rel sum;
   if negb valid then
     log ("SHA256 mismatch for " +:+ package) "FAIL"
   else build_verified stage package r tarball_rel)%prog.

(** What follows [prepare_sandbox] in [build_package]. *)
Definition after_prepare (stage package : string) (r : recipe)
  : prog world unit :=
  let tarball_rel := Etc.path_join package (package +:+ ".tar.xz") in
  (do u <- getfield "urls" (urls r);
   do url <- getitem "tarball" u;
   download url tarball_rel ;;
   do sum <- getfield "sha256" (sha256 r);
   do valid <- verify_sha256 tarball_rel sum;
   if negb valid then
     log ("SHA256 mismatch for " +:+ package) "FAIL"
   else build_verified stage package r tarball_rel)%prog.



End with_env.

(** The state in which a successful [download] ends. *)
Definition downloaded (url rel content : string) (w : world) : world :=
  let dest := Etc.path_join SANDBOX_DIR rel in
  let w1 := add_event (Exec ["curl"; "-L"; "-o"; dest; url] None)
              (add_log ("Downloading " +:+ url +:+ " -> " +:+ dest) "OK" w) in
  set_sandbox (Some (<[rel := content]> (default ∅ (sandbox w1)))) w1.

(** The state in which [after_prepare] starts. *)
Definition prepared (package : string) (w : world) : world :=
  add_log "Sandbox prepared" "OK"
    (set_sandbox (Some (default ∅ (sandbox (add_event (Call package) w))))
       (add_event (Call package) w)).

(** The packages whose build was entered, in order. *)
Definition calls (evs : list event) : list string :=
  omap (fun e => match e with Call p => Some p | _ => None end) evs.

(** A build step of the pipeline: an extraction or a spawned process other
    than the transfer. *)
Definition is_build_step (e : event) : bool :=
  match e with
  | Extract _ _ => true
  | Exec (cmd :: _) _ => negb (String.eqb cmd "curl")
  | Exec [] _ => true
  | _ => false
  end.

(** The builds that one entry of the recipe dictionary starts: those of its
    declared dependencies that are keys of the dictionary, then its own. *)
Definition entry_plan (recipes : dict recipe) (item : string * recipe)
  : list string :=
  filter (fun dep => dmem dep recipes = true)
         (default [] (dependencias_build item.2))
  ++ [item.1].

(** The builds that [build_stage] starts when nothing raises. *)
Definition build_plan (recipes : dict recipe) : list string :=
  concat (map (entry_plan recipes) recipes).

(** An event that neither enters a build nor removes a tree. *)
Definition silent (e : event) : bool :=
  match e with
  | Call _ | Rmtree _ => false
  | _ => true
  end.

(** [m] leaves an existing sandbox in place and adds only silent events. *)
Definition quiet {A} (m : prog world A) : Prop :=
  forall w,
    (is_Some (sandbox w) -> is_Some (sandbox (m w).2)) /\
    exists added, events (m w).2 = events w ++ added /\
                  forallb silent added = true.

(** How often the build of [p] is entered by a plan. *)
Definition times (p : string) (plan : list string) : nat :=
  length (filter (fun x => x = p) plan).

(** The sandbox is still there in [w'], and nothing removed a tree between
    [w] and [w']. *)
Definition kept (w w' : world) : Prop :=
  is_Some (sandbox w') /\
  exists added, events w' = events w ++ added /\
                forall path, ~ In (Rmtree path) added.

(** [m] never removes an existing sandbox. *)
Definition keeps {A} (m : prog world A) : Prop :=
  forall w, is_Some (sandbox w) -> kept w (m w).2.

(** When [m] raises, the sandbox is kept. *)
Definition raise_keeps {A} (m : prog world A) : Prop :=
  forall w e w', is_Some (sandbox w) -> m w = (Raise e, w') -> kept w w'.

(** When [m] returns, the run ended either on the checksum mismatch of
    [package] or with the sandbox removed. *)
Definition ends_released (package : string) (m : prog world unit) : Prop :=
  forall w w', m w = (Ok tt, w') ->
    last (logs w') = Some ("FAIL", "SHA256 mismatch for " +:+ package) \/
    (sandbox w' = None /\ last (logs w') = Some ("OK", "Sandbox cleaned")).


(** An environment in which every transfer, archive and command succeeds and
    every artifact has digest [h]. *)
Definition ok_env : env :=
  mkEnv (fun _ => "h") (fun _ _ => Some "archive") (fun _ => Some [])
        (fun _ _ _ => true).

(** The same, except that [./configure] exits with a failure. *)
Definition configure_fails_env : env :=
  mkEnv (fun _ => "h") (fun _ _ => Some "archive") (fun _ => Some [])
        (fun _ argv _ =>
           match argv with
           | cmd :: _ => negb (String.eqb cmd "./configure")
           | [] => true
           end).

(** A recipe with the given declared checksum and dependencies. *)
Definition simple_recipe (name sum : string) (deps : list string) : recipe :=
  mkRecipe (Some [("tarball", "https://example.org/" +:+ name +:+ ".tar.xz")])
           (Some sum) (Some deps) None None None.

(** gcc declares gmp, and gmp is a package of the same stage. *)
Definition gcc_gmp_recipes : dict recipe :=
  [("gcc", simple_recipe "gcc" "h" ["gmp"]);
   ("gmp", simple_recipe "gmp" "h" [])].

(** A machine with no sandbox, empty trees and an empty database. *)
Definition empty_world : world :=
  mkWorld None ∅ [] ∅ Etc.demo_clock 0 None [] [].


(** From a state with a sandbox, [m] returns, adds exactly the events [evs]
    and leaves a sandbox. *)
Definition runs {A} (evs : list event) (m : prog world A) : Prop :=
  forall w, is_Some (sandbox w) ->
    exists a w', m w = (Ok a, w') /\ events w' = events w ++ evs /\
                 is_Some (sandbox w').

(** The command lines of the pipeline. *)
Definition curl_argv (package url : string) : list string :=
  ["curl"; "-L"; "-o";
   Etc.path_join SANDBOX_DIR (Etc.path_join package (package +:+ ".tar.xz"));
   url].

Definition patch_argv (patch : string) : list string :=
  ["patch"; "-p1"; "-i"; patch].



(** The events of a build of [package] up to and including the extraction,
    and the events of its patches. *)
Definition fetch_events (package url : string) : list event :=
  [Call package; Exec (curl_argv package url) None;
   Extract
     (Etc.path_join SANDBOX_DIR (Etc.path_join package (package +:+ ".tar.xz")))
     (Etc.path_join SANDBOX_DIR package)].

Definition patch_events (package : string) (patches : list string)
  : list event :=
  map (fun p => Exec (patch_argv p) (Some (Etc.path_join SANDBOX_DIR package)))
      patches.

(** An environment in which the patch [bad.patch] does not apply. *)
Definition patch_fails_env : env :=
  mkEnv (fun _ => "h") (fun _ _ => Some "archive") (fun _ => Some [])
        (fun _ argv _ =>
           negb (bool_decide (argv = ["patch"; "-p1"; "-i"; "bad.patch"]))).


(** A recipe without urls, one without checksum, and one with three
    patches. *)
Definition no_url_recipe : recipe :=
  mkRecipe None (Some "h") None None None None.

Definition no_checksum_recipe : recipe :=
  mkRecipe (Some [("tarball", "https://example.org/zlib.tar.xz")])
           None None None None None.

Definition patched_recipe : recipe :=
  mkRecipe (Some [("tarball", "https://example.org/zlib.tar.xz")])
           (Some "h") None (Some ["a.patch"; "bad.patch"; "c.patch"])
           None None.

(** The recipes of the script's example run. *)
Definition GCC_RECIPE : recipe :=
  mkRecipe
    (Some [("tarball", "https://ftp.gnu.org/gnu/gcc/gcc-12.2.0/gcc-12.2.0.tar.xz")])
    (Some "d08a6c1a8c23ee8b3e1c1b8d7d5ebf5f9f7715c7b6f4b5646f6b3f6f6b5f6c5f")
    (Some ["mpfr"; "gmp"; "mpc"])
    None
    (Some "autotools")
    (Some ["--disable-multilib"]).

End Build.

(** ** gbuild.py: the [Gerenciador] front end *)

Module Gbuild.
Import Py PyDict.

Record URLs : Type := mkURLs { tarball : string; git : option string }.

Record Hooks : Type := mkHooks {
  pre_download : list string;
  pre_build : list string;
  post_build : list string;
  post_install : list string;
  post_remove : list string
}.

Definition no_hooks : Hooks := mkHooks [] [] [] [] [].

Record Testes : Type := mkTestes { command : string; required : bool }.

Record Receita : Type := mkReceita {
  nome : string;
  versao : string;
  descricao : string;
  urls : option URLs;
  sha256 : string;
  dependencias_build : list string;
  dependencias_runtime : list string;
  flags_use : list string;
  tipo_build : string;
  hooks : Hooks;
  testes : option Testes;
  binario_disponivel : bool
}.

Record Grupo : Type := mkGrupo {
  grupo_nome : string;
  grupo_descricao : string;
  pacotes_do_grupo : list string
}.

(** [instalada_em] is the reading of [time.time()], in seconds. *)
Record PacoteInstalado : Type := mkPacoteInstalado {
  pacote_nome : string;
  pacote_versao : string;
  pacote_flags_use : list string;
  instalada_em : Q
}.

Record Sandbox : Type := mkSandbox {
  path_build : string;
  path_install : string;
  sandbox_env : dict string
}.

(** A [Gerenciador]: [banco.pacotes], the sandbox, the groups, and what was
    printed.  The lock of [BancoDados] guards one assignment and has no
    effect on a sequential run. *)
Record Gerenciador : Type := mkGerenciador {
  pacotes : dict PacoteInstalado;
  sandbox : Sandbox;
  grupos : dict Grupo;
  stdout : list string
}.

Definition new_Gerenciador : Gerenciador :=
  mkGerenciador []
    (mkSandbox "/tmp/pm-sandbox/build" "/tmp/pm-sandbox/install" []) [] [].

Definition print (line : string) : prog Gerenciador unit :=
  modify (fun g => mkGerenciador (pacotes g) (sandbox g) (grupos g)
                                 (stdout g ++ [line])).

(** [BancoDados.registrar_pacote] *)
Definition registrar_pacote (pkg : PacoteInstalado) : prog Gerenciador unit :=
  modify (fun g => mkGerenciador (dset (pacote_nome pkg) pkg (pacotes g))
                                 (sandbox g) (grupos g) (stdout g)).

(** [executar_hooks] *)
Definition executar_hooks (cmds : list string) : prog Gerenciador unit :=
  for_each cmds (fun cmd => print ("[HOOK] Executando: " +:+ cmd)).

(** [rodar_testes]: the command is printed, never run. *)
Definition rodar_testes (t : Testes) : prog Gerenciador unit :=
  (print ("[TESTES] Executando: " +:+ command t) ;;
   if required t then print "[TESTES] Falha bloqueia instalação"
   else ret tt)%prog.

(** [instalar_pacote(receita, usar_binario, rodar_testes, jobs)]; [agora] is
    what [time.time()] returns when the record is built. *)
Definition instalar_pacote (receita : Receita) (usar_binario : bool)
    (rodar_testes_flag : bool) (jobs : Z) (agora : Q)
  : prog Gerenciador unit :=
  (print ("[INFO] Instalando pacote: " +:+ nome receita) ;;
   executar_hooks (pre_download (hooks receita)) ;;
   (if usar_binario && binario_disponivel receita then
      print ("[INFO] Instalando binário pré-compilado de " +:+ nome receita)
    else
      print ("[INFO] Baixando e compilando " +:+ nome receita) ;;
      print ("[INFO] Configurando build: " +:+ tipo_build receita) ;;
      print ("[INFO] Compilando com " +:+ pretty jobs +:+ " threads...") ;;
      match testes receita with
      | Some t => if rodar_testes_flag then rodar_testes t else ret tt
      | None => ret tt
      end ;;
      executar_hooks (post_build (hooks receita)) ;;
      do sb <- gets sandbox;
      print ("[INFO] Instalando pacote no sandbox: " +:+ path_install sb)) ;;
   executar_hooks (post_install (hooks receita)) ;;
   registrar_pacote (mkPacoteInstalado (nome receita) (versao receita)
                       (flags_use receita) agora))%prog.

(** [configurar_sandbox] *)
Definition configurar_sandbox (receita : Receita) : prog Gerenciador unit :=
  modify (fun g =>
    let pb := "/tmp/pm-sandbox/build/" +:+ nome receita in
    let pi := "/tmp/pm-sandbox/install/" +:+ nome receita in
    mkGerenciador (pacotes g)
      (mkSandbox pb pi (dset "SANDBOX" pi (sandbox_env (sandbox g))))
      (grupos g) (stdout g)).

(** [remover_pacote], [atualizar_sistema], [rollback_pacote],
    [criar_snapshot], [restaurar_snapshot], [monitora_log]: each prints one
    line. *)
Definition remover_pacote (nome : string) : prog Gerenciador unit :=
  print ("[INFO] Removendo pacote: " +:+ nome).

Definition atualizar_sistema (jobs : Z) : prog Gerenciador unit :=
  print "[INFO] Atualizando sistema completo".

Definition rollback_pacote (nome versao : string) : prog Gerenciador unit :=
  print ("[INFO] Rollback do pacote: " +:+ nome +:+ " para versão " +:+ versao).

Definition criar_snapshot (nome : string) : prog Gerenciador unit :=
  print ("[INFO] Criando snapshot: " +:+ nome).

Definition restaurar_snapshot (nome : string) : prog Gerenciador unit :=
  print ("[INFO] Restaurando snapshot: " +:+ nome).

Definition monitora_log (path : string) : prog Gerenciador unit :=
  print ("[LOG] Monitorando log em tempo real: " +:+ path).

(** [Receita(nome=pkg_nome, versao="")], the other fields at their
    defaults. *)
Definition receita_de_membro (pkg_nome : string) : Receita :=
  mkReceita pkg_nome "" "" None "" [] [] [] "autotools" no_hooks None false.

(** The loop of [instalar_grupo]; [relogio k] is what [time.time()] returns
    for the member at position [k]. *)
Fixpoint instalar_membros (membros : list string) (usar_binario : bool)
    (rodar_testes_flag : bool) (jobs : Z) (relogio : nat -> Q) (k : nat)
  : prog Gerenciador unit :=
  match membros with
  | [] => ret tt
  | pkg_nome :: resto =>
      bind (instalar_pacote (receita_de_membro pkg_nome) usar_binario
              rodar_testes_flag jobs (relogio k))
           (fun _ => instalar_membros resto usar_binario rodar_testes_flag
                       jobs relogio (S k))
  end.

(** [instalar_grupo(nome, usar_binario, rodar_testes, jobs)] *)
Definition instalar_grupo (nome : string) (usar_binario : bool)
    (rodar_testes_flag : bool) (jobs : Z) (relogio : nat -> Q)
  : prog Gerenciador unit :=
  (do grupo <- gets (fun g => dget nome (grupos g));
   match grupo with
   | None => print ("[ERRO] Grupo " +:+ nome +:+ " não encontrado")
   | Some grupo =>
       print ("[INFO] Instalando grupo: " +:+ nome) ;;
       instalar_membros (pacotes_do_grupo grupo) usar_binario
         rodar_testes_flag jobs relogio 0
   end)%prog.

(** [gerenciador.grupos[nome] = grupo] *)
Definition definir_grupo (grupo : Grupo) (g : Gerenciador) : Gerenciador :=
  mkGerenciador (pacotes g) (sandbox g)
    (dset (grupo_nome grupo) grupo (grupos g)) (stdout g).

(** The lines that [executar_hooks] prints. *)
Definition hook_lines (cmds : list string) : list string :=
  map (fun cmd => "[HOOK] Executando: " +:+ cmd) cmds.

(** The lines that [rodar_testes] prints. *)
Definition test_lines (t : Testes) : list string :=
  ("[TESTES] Executando: " +:+ command t)
  :: (if required t then ["[TESTES] Falha bloqueia instalação"] else []).

(** The lines that [instalar_pacote] prints, [path] being the install path
    of the sandbox. *)
Definition install_lines (receita : Receita) (usar_binario rodar : bool)
    (jobs : Z) (path : string) : list string :=
  ["[INFO] Instalando pacote: " +:+ nome receita]
  ++ hook_lines (pre_download (hooks receita))
  ++ (if usar_binario && binario_disponivel receita then
        ["[INFO] Instalando binário pré-compilado de " +:+ nome receita]
      else
        ["[INFO] Baixando e compilando " +:+ nome receita;
         "[INFO] Configurando build: " +:+ tipo_build receita;
         "[INFO] Compilando com " +:+ pretty jobs +:+ " threads..."]
        ++ match testes receita with
           | Some t => if rodar then test_lines t else []
           | None => []
           end
        ++ hook_lines (post_build (hooks receita))
        ++ ["[INFO] Instalando pacote no sandbox: " +:+ path])
  ++ hook_lines (post_install (hooks receita)).

(** The record that [instalar_pacote] registers. *)
Definition registro (receita : Receita) (agora : Q) : PacoteInstalado :=
  mkPacoteInstalado (nome receita) (versao receita) (flags_use receita) agora.

(** The manager after printing [lines]. *)
Definition put_lines (lines : list string) (g : Gerenciador) : Gerenciador :=
  mkGerenciador (pacotes g) (sandbox g) (grupos g) (stdout g ++ lines).

(** A line printed by [executar_hooks]. *)
Definition is_hook_line (line : string) : bool := String.prefix "[HOOK]" line.

(** The example group of the script. *)
Definition grupo_base : Grupo :=
  mkGrupo "base" "" ["gcc"; "binutils"; "glibc"; "kernel"].

(** Printing leaves the database alone. *)
Definition same_pacotes (g g' : Gerenciador) : Prop := pacotes g' = pacotes g.

(** The recipe of the script's example run, with the test command the run
    declares; nothing in [instalar_pacote] depends on how that command ends. *)
Definition receita_firefox : Receita :=
  mkReceita "firefox" "118.0" "" None "" [] [] ["pulseaudio"; "ffmpeg"]
    "mozconfig" (mkHooks [] ["echo 'Preparando build'"] [] [] [])
    (Some (mkTestes "make check" true)) true.

End Gbuild.

(** ** version-tracker.py *)

Module Tracker.
Import Py PyDict.

(** [class Package] *)
Record Package : Type := mkPackage {
  name : string;
  version : string;
  url : string;
  use_flags : list string;
  update_policy : string;
  group : option string
}.

Definition set_version (p : Package) (v : string) : Package :=
  mkPackage (name p) v (url p) (use_flags p) (update_policy p) (group p).

(** [parts[i]] *)
Definition index (parts : list string) (i : nat) : outcome string :=
  match parts !! i with
  | Some x => Ok x
  | None => Raise IndexError
  end.

(** [line.strip().split()] *)
Definition fields (line : string) : list string := split (strip line).

(** The body of the loop of [load_installed_packages] for one line. *)
Definition load_line (packages : dict Package) (line : string)
  : outcome (dict Package) :=
  let parts := fields line in
  if (2 <=? length parts)%nat then
    match index parts 0, index parts 1 with
    | Ok name, Ok version =>
        Ok (dset name (mkPackage name version "" [] "notify" None) packages)
    | Raise e, _ | _, Raise e => Raise e
    end
  else Ok packages.

Fixpoint load_lines (packages : dict Package) (lines : list string)
  : outcome (dict Package) :=
  match lines with
  | [] => Ok packages
  | line :: rest =>
      match load_line packages line with
      | Ok packages' => load_lines packages' rest
      | Raise e => Raise e
      end
  end.

(** [load_installed_packages]; [db] is the content of [PACKAGE_DB], or
    [None] when the file does not exist. *)
Definition load_installed_packages (db : option string)
  : outcome (dict Package) :=
  match db with
  | Some content => load_lines [] (readlines content)
  | None => Ok []
  end.

(** An entry of [self.versions]: (old, new, policy, group). *)
Definition descriptor : Type := (string * string * string * option string)%type.

Record tracker : Type := mkTracker {
  installed_packages : dict Package;
  manifest : dict Package;
  versions : dict descriptor;
  log_file : list string
}.

Definition log (msg : string) : prog tracker unit :=
  modify (fun t => mkTracker (installed_packages t) (manifest t) (versions t)
                             (log_file t ++ [msg])).

(** [check_updates] *)
Fixpoint check_updates_loop (manifest : dict Package)
    (items : list (string * Package)) (updates : dict descriptor)
  : dict descriptor :=
  match items with
  | [] => updates
  | (name, pkg) :: rest =>
      check_updates_loop manifest rest
        match dget name manifest with
        | Some upstream =>
            if negb (String.eqb (version pkg) (version upstream)) then
              dset name (version pkg, version upstream,
                         update_policy upstream, group upstream) updates
            else updates
        | None => updates
        end
  end.

Definition check_updates : prog tracker (dict descriptor) :=
  fun t =>
    let updates := check_updates_loop (manifest t) (installed_packages t) [] in
    (Ok updates,
     mkTracker (installed_packages t) (manifest t) updates (log_file t)).

(** [self.installed_packages[name].version = new_ver] *)
Definition assign_version (name new_ver : string) : prog tracker unit :=
  fun t =>
    match dget name (installed_packages t) with
    | Some pkg =>
        (Ok tt,
         mkTracker (dset name (set_version pkg new_ver) (installed_packages t))
                   (manifest t) (versions t) (log_file t))
    | None => (Raise (KeyError name), t)
    end.

Definition update_auto_body (item : string * descriptor) : prog tracker unit :=
  let '(name, (old_ver, new_ver, policy, group)) := item in
  if String.eqb policy "auto" then
    (log ("Updating " +:+ name +:+ ": " +:+ old_ver +:+ " → " +:+ new_ver
          +:+ " (group " +:+ str_opt group +:+ ")") ;;
     assign_version name new_ver ;;
     log (name +:+ " updated successfully"))%prog
  else ret tt.

(** [update_auto]: no build is driven anywhere in the loop. *)
Definition update_auto : prog tracker unit :=
  fun t => for_each (versions t) update_auto_body t.

Definition notify_body (item : string * descriptor) : prog tracker unit :=
  let '(name, (old_ver, new_ver, policy, group)) := item in
  if String.eqb policy "notify" then
    log ("CRITICAL PACKAGE: " +:+ name +:+ " has new version " +:+ new_ver
         +:+ " (installed " +:+ old_ver +:+ ")")
  else ret tt.

Definition notify : prog tracker unit :=
  fun t => for_each (versions t) notify_body t.

Definition update_group_body (group_name : string)
    (item : string * descriptor) : prog tracker unit :=
  let '(name, (old_ver, new_ver, policy, group)) := item in
  if bool_decide (group = Some group_name) && String.eqb policy "auto" then
    (log ("Updating " +:+ name +:+ " in group " +:+ group_name +:+ ": "
          +:+ old_ver +:+ " → " +:+ new_ver) ;;
     assign_version name new_ver ;;
     log (name +:+ " updated successfully"))%prog
  else ret tt.

Definition update_group (group_name : string) : prog tracker unit :=
  fun t => for_each (versions t) (update_group_body group_name) t.

(** The new version that a descriptor announces, and its policy and group. *)
Definition new_version (d : descriptor) : string :=
  let '(_, new_ver, _, _) := d in new_ver.

Definition policy_of (d : descriptor) : string :=
  let '(_, _, policy, _) := d in policy.

Definition group_of (d : descriptor) : option string :=
  let '(_, _, _, group) := d in group.

(** The test of [update_auto] and the test of [update_group]. *)
Definition is_auto (d : descriptor) : bool := String.eqb (policy_of d) "auto".

Definition in_group_auto (group_name : string) (d : descriptor) : bool :=
  bool_decide (group_of d = Some group_name) && String.eqb (policy_of d) "auto".

(** What [check_updates] reports for a name, read off the two dictionaries. *)
Definition expected_update (installed manifest : dict Package) (name : string)
  : option descriptor :=
  match dget name installed, dget name manifest with
  | Some pkg, Some upstream =>
      if String.eqb (version pkg) (version upstream) then None
      else Some (version pkg, version upstream,
                 update_policy upstream, group upstream)
  | _, _ => None
  end.

(** What an update loop that applies the descriptors chosen by [sel] makes
    of the record of [n]. *)
Definition updated (sel : descriptor -> bool) (items : dict descriptor)
    (installed : dict Package) (n : string) : option Package :=
  match dget n items with
  | Some d =>
      if sel d then
        (fun pkg => set_version pkg (new_version d)) <$> dget n installed
      else dget n installed
  | None => dget n installed
  end.

(** The notice that [notify] logs for a descriptor. *)
Definition notice (item : string * descriptor) : string :=
  "CRITICAL PACKAGE: " +:+ item.1 +:+ " has new version "
  +:+ new_version item.2 +:+ " (installed " +:+ item.2.1.1.1 +:+ ")".

(** The record that [load_installed_packages] builds for a line. *)
Definition installed_record (name version : string) : Package :=
  mkPackage name version "" [] "notify" None.

(** Specification of the loaded database: the version given by the last line
    that has at least two fields and [name] as its first field. *)
Fixpoint last_version (name : string) (lines : list string) : option string :=
  match lines with
  | [] => None
  | line :: rest =>
      match last_version name rest with
      | Some v => Some v
      | None =>
          match fields line with
          | n :: v :: _ => if String.eqb n name then Some v else None
          | _ => None
          end
      end
  end.

(** The lines of the database file. *)
Definition db_lines (db : option string) : list string :=
  match db with Some content => readlines content | None => [] end.

(** A database file with a one-field line, an empty line and a repeated
    name. *)
Definition sample_db : string :=
  "zlib 1.2.11" +:+ nl +:+ "orphan" +:+ nl +:+ nl +:+ "zlib 1.3 extra" +:+ nl.

(** Three installed packages: the manifest moves alpha to 2.0 with policy
    auto in group core, moves beta to 3.1 with policy notify, and lists
    gamma at its installed version. *)
Definition sample_tracker : tracker :=
  mkTracker
    [("alpha", mkPackage "alpha" "1.0" "" [] "notify" None);
     ("beta", mkPackage "beta" "3.0" "" [] "notify" None);
     ("gamma", mkPackage "gamma" "0.9" "" [] "notify" None)]
    [("alpha", mkPackage "alpha" "2.0" "" [] "auto" (Some "core"));
     ("beta", mkPackage "beta" "3.1" "" [] "notify" (Some "desktop"));
     ("gamma", mkPackage "gamma" "0.9" "" [] "auto" (Some "core"))]
    [] [].

(** Descriptors of which the second names a package that is not installed. *)
Definition stale_tracker : tracker :=
  mkTracker
    [("alpha", mkPackage "alpha" "1.0" "" [] "notify" None);
     ("gamma", mkPackage "gamma" "0.9" "" [] "notify" None)]
    []
    [("alpha", ("1.0", "2.0", "auto", Some "core"));
     ("ghost", ("1.0", "1.1", "auto", None));
     ("gamma", ("0.9", "1.0", "auto", None))]
    [].

(** Scenario E: pkg 1.0 installed, the manifest announces 2.0 with policy
    auto in group core. *)
Definition scenario_E : tracker :=
  mkTracker [("pkg", mkPackage "pkg" "1.0" "" [] "notify" None)]
            [("pkg", mkPackage "pkg" "2.0" "" [] "auto" (Some "core"))]
            [] [].

End Tracker.

(** * Properties *)

(** ** Text *)

Section py_facts.
Import Py.

Lemma string_length_app (p q : string) :
  String.length (p +:+ q) = String.length p + String.length q.
Proof. induction p as [|c p IH]; simpl; [done | by rewrite IH]. Qed.

Lemma substring_all (s : string) : substring 0 (String.length s) s = s.
Proof. induction s as [|c s IH]; simpl; [done | by rewrite IH]. Qed.

Lemma substring_app_suffix (p q : string) :
  substring (String.length p) (String.length q) (p +:+ q) = q.
Proof. induction p as [|c p IH]; simpl; [apply substring_all | done]. Qed.

Lemma substring_split (s : string) :
  forall n, n <= String.length s ->
  s = substring 0 n s +:+ substring n (String.length s - n) s.
Proof.
  induction s as [|c s IH]; intros [|n] Hn; simpl in *; try lia; try done.
  - by rewrite substring_all.
  - change (String c s = String c (substring 0 n s
                                   +:+ substring n (String.length s - n) s)).
    f_equal. apply IH. lia.
Qed.

(** [endswith] holds exactly of the strings that are some prefix followed by
    the suffix. *)
Lemma endswith_spec (s suffix : string) :
  endswith s suffix = true <-> exists prefix, s = prefix +:+ suffix.
Proof.
  unfold endswith. rewrite andb_true_iff, Nat.leb_le, String.eqb_eq. split.
  - intros [Hle Hsub].
    exists (substring 0 (String.length s - String.length suffix) s).
    pose proof (substring_split s (String.length s - String.length suffix))
      as Hsplit.
    replace (String.length s - (String.length s - String.length suffix))
      with (String.length suffix) in Hsplit by lia.
    rewrite Hsub in Hsplit. apply Hsplit. lia.
  - intros [prefix ->]. rewrite string_length_app. split; [lia|].
    replace (String.length prefix + String.length suffix
             - String.length suffix) with (String.length prefix) by lia.
    apply substring_app_suffix.
Qed.

(** Every field that [split] returns is non-empty and free of whitespace. *)
Lemma split_fields (s : string) :
  forall w, In w (split s) -> w <> "" /\ no_space w.
Proof.
  induction s as [|c s IH]; intros w; simpl; [done|].
  destruct (isspace c) eqn:Hc; [apply IH|].
  destruct s as [|c' s'].
  - intros [<-|[]]. by simpl.
  - destruct (isspace c') eqn:Hc'.
    + intros [<-|H]; [by simpl | by apply IH].
    + destruct (split (String c' s')) as [|w0 ws] eqn:Hs.
      * intros [<-|[]]. by simpl.
      * intros [<-|H].
        -- destruct (IH w0 (or_introl eq_refl)) as [_ Hw0]. by simpl.
        -- apply IH. by right.
Qed.

End py_facts.

(** ** The monad *)

Section prog_facts.
Context {S : Type}.

Lemma bind_Ok {A B} (m : prog S A) (k : A -> prog S B) s a s' :
  m s = (Ok a, s') -> bind m k s = k a s'.
Proof. intros H. unfold bind. by rewrite H. Qed.

Lemma bind_Raise {A B} (m : prog S A) (k : A -> prog S B) s e s' :
  m s = (Raise e, s') -> bind m k s = (Raise e, s').
Proof. intros H. unfold bind. by rewrite H. Qed.

Lemma returns_ret {A} (R : S -> S -> Prop) (a : A) :
  Reflexive R -> returns R (ret a).
Proof. intros HR s. exists a, s. split; [done | apply HR]. Qed.

Lemma returns_bind {A B} (R : S -> S -> Prop) (m : prog S A)
    (k : A -> prog S B) :
  Transitive R -> returns R m -> (forall a, returns R (k a)) ->
  returns R (bind m k).
Proof.
  intros HR Hm Hk s. destruct (Hm s) as (a & s1 & E1 & R1).
  destruct (Hk a s1) as (b & s2 & E2 & R2).
  exists b, s2. split; [by rewrite (bind_Ok _ _ _ _ _ E1) | by etrans].
Qed.

(** A postcondition on the final state survives any prefix that returns. *)
Lemma returns_bind_post {A B} (R : S -> S -> Prop) (Q : S -> Prop)
    (m : prog S A) (k : A -> prog S B) :
  returns R m -> (forall a, returns (fun _ s' => Q s') (k a)) ->
  returns (fun _ s' => Q s') (bind m k).
Proof.
  intros Hm Hk s. destruct (Hm s) as (a & s1 & E1 & _).
  destruct (Hk a s1) as (b & s2 & E2 & R2).
  exists b, s2. split; [by rewrite (bind_Ok _ _ _ _ _ E1) | done].
Qed.

Lemma returns_modify (R : S -> S -> Prop) (f : S -> S) :
  (forall s, R s (f s)) -> returns R (modify f).
Proof. intros H s. exists tt, (f s). split; [done | apply H]. Qed.

Lemma returns_gets {A} (R : S -> S -> Prop) (f : S -> A) :
  Reflexive R -> returns R (gets f).
Proof. intros HR s. exists (f s), s. split; [done | apply HR]. Qed.

Lemma returns_for_each {A} (R : S -> S -> Prop) (xs : list A)
    (body : A -> prog S unit) :
  Reflexive R -> Transitive R -> (forall x, returns R (body x)) ->
  returns R (for_each xs body).
Proof.
  intros HR HT Hb. induction xs as [|x xs IH]; simpl.
  - by apply returns_ret.
  - apply returns_bind; auto.
Qed.

Lemma for_each_app {A} (xs ys : list A) (body : A -> prog S unit) s :
  for_each (xs ++ ys) body s =
  bind (for_each xs body) (fun _ => for_each ys body) s.
Proof.
  revert s. induction xs as [|x xs IH]; intros s; simpl; [reflexivity|].
  unfold bind. destruct (body x s) as [[[]|e] s1]; [|reflexivity].
  by rewrite IH.
Qed.

End prog_facts.

(** ** Dictionaries *)

Section dict_facts.
Import PyDict.
Context {V : Type}.
Implicit Types d : dict V.

Lemma dget_dset_eq k v d : dget k (dset k v d) = Some v.
Proof.
  induction d as [|[k' v'] d IH]; simpl.
  - by rewrite String.eqb_refl.
  - destruct (String.eqb k k') eqn:E; simpl; rewrite ?E, ?String.eqb_refl; auto.
Qed.

Lemma dget_dset_ne k k' v d : k <> k' -> dget k' (dset k v d) = dget k' d.
Proof.
  intros Hne. induction d as [|[k0 v0] d IH]; simpl.
  - destruct (String.eqb k' k) eqn:E; [|done].
    apply String.eqb_eq in E. congruence.
  - destruct (String.eqb k k0) eqn:E; simpl.
    + apply String.eqb_eq in E. subst k0.
      destruct (String.eqb k' k) eqn:E'; [|done].
      apply String.eqb_eq in E'. congruence.
    + by rewrite IH.
Qed.

Lemma dget_dset k k' v d :
  dget k' (dset k v d) = if String.eqb k' k then Some v else dget k' d.
Proof.
  destruct (String.eqb k' k) eqn:E.
  - apply String.eqb_eq in E. subst. apply dget_dset_eq.
  - apply dget_dset_ne. intros ->. by rewrite String.eqb_refl in E.
Qed.

Lemma keys_dset_mem k v d :
  dmem k d = true -> keys (dset k v d) = keys d.
Proof.
  unfold dmem. induction d as [|[k0 v0] d IH]; simpl; [done|].
  destruct (String.eqb k k0) eqn:E; simpl.
  - apply String.eqb_eq in E. by subst.
  - intros H. by rewrite IH.
Qed.

Lemma dget_Some_In k v d : dget k d = Some v -> In (k, v) d.
Proof.
  induction d as [|[k0 v0] d IH]; simpl; [done|].
  destruct (String.eqb k k0) eqn:E.
  - apply String.eqb_eq in E. intros [= ->]. subst. by left.
  - intros H. right. auto.
Qed.

Lemma In_dget k v d : NoDup (keys d) -> In (k, v) d -> dget k d = Some v.
Proof.
  induction d as [|[k0 v0] d IH]; simpl; [done|].
  intros Hnd [Heq|Hin].
  - injection Heq as -> ->. by rewrite String.eqb_refl.
  - apply NoDup_cons in Hnd as [Hni Hnd].
    destruct (String.eqb k k0) eqn:E.
    + apply String.eqb_eq in E. subst k0. exfalso. apply Hni.
      apply list_elem_of_In. change k with (fst (k, v)). by apply in_map.
    + auto.
Qed.

Lemma dget_keys k d : is_Some (dget k d) <-> In k (keys d).
Proof.
  induction d as [|[k0 v0] d IH]; simpl.
  - split; [by intros [? ?] | done].
  - destruct (String.eqb k k0) eqn:E.
    + apply String.eqb_eq in E. subst. split; [by left | by eexists].
    + rewrite IH. split; [by right | intros [->|H]; [|done]].
      by rewrite String.eqb_refl in E.
Qed.

Lemma keys_dset k v d :
  keys (dset k v d) = if dmem k d then keys d else keys d ++ [k].
Proof.
  unfold dmem. induction d as [|[k0 v0] d IH]; simpl; [done|].
  destruct (String.eqb k k0) eqn:E; simpl.
  - apply String.eqb_eq in E. by subst.
  - rewrite IH. by destruct (dget k d).
Qed.

Lemma NoDup_keys_dset k v d : NoDup (keys d) -> NoDup (keys (dset k v d)).
Proof.
  intros Hnd. rewrite keys_dset. destruct (dmem k d) eqn:Hm; [done|].
  apply NoDup_app. split; [done|]. split; [|apply NoDup_singleton].
  intros x Hx Hk. apply list_elem_of_singleton in Hk. subst x.
  apply list_elem_of_In, dget_keys in Hx. unfold dmem in Hm.
  destruct (dget k d); [done | by destruct Hx].
Qed.

Lemma dset_dset k v v' d : dset k v (dset k v' d) = dset k v d.
Proof.
  induction d as [|[k0 v0] d IH]; simpl.
  - by rewrite String.eqb_refl.
  - destruct (String.eqb k k0) eqn:E; simpl.
    + by rewrite String.eqb_refl.
    + by rewrite E, IH.
Qed.

Lemma dmem_dset k k' v d :
  dmem k' (dset k v d) = (String.eqb k' k || dmem k' d)%bool.
Proof.
  unfold dmem. rewrite dget_dset. by destruct (String.eqb k' k).
Qed.

Lemma dget_None_not_In k d : dget k d = None <-> ~ In k (keys d).
Proof.
  rewrite <- dget_keys. split.
  - intros H [v Hv]. congruence.
  - intros H. destruct (dget k d) eqn:E; [|done]. exfalso. apply H. by eexists.
Qed.

End dict_facts.

(** ** version-tracker.py *)

Section tracker_facts.
Import Py PyDict Tracker.

(** A line of fewer than two fields leaves the dictionary as it is; any
    other line stores the record of its first two fields. *)
Lemma load_line_cases (packages : dict Package) (line : string) :
  match fields line with
  | n :: v :: _ =>
      load_line packages line = Ok (dset n (installed_record n v) packages)
  | _ => load_line packages line = Ok packages
  end.
Proof.
  unfold load_line. destruct (fields line) as [|n [|v rest]]; reflexivity.
Qed.


Lemma last_version_short (name line : string) (pre post : list string) :
  length (fields line) < 2 ->
  last_version name (pre ++ line :: post) = last_version name (pre ++ post).
Proof.
  intros H. induction pre as [|l pre IH]; simpl.
  - destruct (last_version name post); [done|].
    destruct (fields line) as [|n [|v rest]]; simpl in H; [done | done | lia].
  - by rewrite IH.
Qed.


(** The loop never raises, and a name is bound to the version of its last
    well-formed line, or keeps what the accumulator had. *)
Lemma load_lines_spec (lines : list string) :
  forall acc : dict Package,
  exists pkgs, load_lines acc lines = Ok pkgs /\
    forall name, dget name pkgs =
      match last_version name lines with
      | Some v => Some (installed_record name v)
      | None => dget name acc
      end.
Proof.
  induction lines as [|line rest IH]; intros acc; simpl.
  - by exists acc.
  - pose proof (load_line_cases acc line) as Hc.
    destruct (fields line) as [|n [|v more]];
      rewrite Hc; try (destruct (IH acc) as (pkgs & E & Hget);
                       exists pkgs; split; [done|]; intros name;
                       rewrite Hget; by destruct (last_version name rest)).
    destruct (IH (dset n (installed_record n v) acc)) as (pkgs & E & Hget).
    exists pkgs. split; [done|]. intros name. rewrite Hget.
    destruct (last_version name rest); [done|].
    rewrite dget_dset. rewrite (String.eqb_sym name n).
    destruct (String.eqb n name) eqn:En; [|done].
    apply String.eqb_eq in En. by subst.
Qed.



(** [update_auto] on one descriptor with policy auto whose package is
    installed: the version is overwritten and two lines are logged. *)
Lemma update_auto_body_auto (t : tracker) (name old new : string)
    (g : option string) (pkg : Package) :
  dget name (installed_packages t) = Some pkg ->
  exists t', update_auto_body (name, (old, new, "auto", g)) t = (Ok tt, t') /\
    installed_packages t' = dset name (set_version pkg new) (installed_packages t) /\
    versions t' = versions t.
Proof.
  intros H. unfold update_auto_body. simpl.
  unfold bind, log, modify, assign_version. simpl. rewrite H. simpl.
  eexists. split; [reflexivity|]. by simpl.
Qed.

Lemma update_auto_body_frame (t : tracker) (name old new policy : string)
    (g : option string) :
  dmem name (installed_packages t) = true ->
  exists t', update_auto_body (name, (old, new, policy, g)) t = (Ok tt, t') /\
    (forall n, n <> name ->
       dget n (installed_packages t') = dget n (installed_packages t)) /\
    (forall n, dmem n (installed_packages t')
               = dmem n (installed_packages t)) /\
    (policy = "auto" ->
     version <$> dget name (installed_packages t') = Some new).
Proof.
  intros Hmem. unfold update_auto_body.
  destruct (String.eqb policy "auto") eqn:Hp.
  - unfold dmem in Hmem.
    destruct (dget name (installed_packages t)) as [pkg|] eqn:Hg; [|done].
    apply String.eqb_eq in Hp. subst policy.
    destruct (update_auto_body_auto t name old new g pkg Hg)
      as (t' & Ht' & Hi & _).
    unfold update_auto_body in Ht'. simpl in Ht'.
    exists t'. split; [done|]. rewrite Hi. split_and!.
    + intros n Hn. by apply dget_dset_ne.
    + intros n. unfold dmem. rewrite dget_dset.
      destruct (String.eqb n name) eqn:En; [|done].
      apply String.eqb_eq in En. subst. by rewrite Hg.
    + intros _. by rewrite dget_dset_eq.
  - exists t. split; [done|]. split_and!; try done.
    intros ->. by rewrite String.eqb_refl in Hp.
Qed.

Lemma update_auto_loop (items : dict descriptor) :
  forall t : tracker,
  NoDup (keys items) ->
  (forall n d, In (n, d) items -> dmem n (installed_packages t) = true) ->
  exists t', for_each items update_auto_body t = (Ok tt, t') /\
    (forall n, dmem n (installed_packages t')
               = dmem n (installed_packages t)) /\
    (forall n, ~ In n (keys items) ->
       dget n (installed_packages t') = dget n (installed_packages t)) /\
    (forall n old new g, In (n, (old, new, "auto", g)) items ->
       version <$> dget n (installed_packages t') = Some new).
Proof.
  induction items as [|[name [[[old new] policy] g]] items IH];
    intros t Hnd Hin; simpl.
  - exists t. split_and!; done.
  - apply NoDup_cons in Hnd as [Hname Hnd].
    rewrite list_elem_of_In in Hname.
    destruct (update_auto_body_frame t name old new policy g)
      as (t1 & E1 & Fr1 & Mem1 & New1).
    { apply (Hin name (old, new, policy, g)). by left. }
    destruct (IH t1 Hnd) as (t' & E2 & Mem2 & Fr2 & New2).
    { intros n d Hd. rewrite Mem1. apply (Hin n d). by right. }
    exists t'. rewrite (bind_Ok _ _ _ _ _ E1). split; [done|]. split_and!.
    + intros n. by rewrite Mem2.
    + intros n Hn. rewrite Fr2 by (intros ?; apply Hn; by right).
      apply Fr1. intros ->. apply Hn. by left.
    + intros n old' new' g' [Heq|Hd]; [|by apply (New2 n old' new' g')].
      injection Heq as -> -> -> ->. rewrite Fr2 by done. by apply New1.
Qed.

(** C4. Whatever the state of the tracker, [update_auto] returns and records
    the new version of every descriptor with policy auto: the loop drives no
    rebuild, so that no failure of a rebuild can keep the old version
    recorded.  (The descriptors are those of [check_updates]: their names
    are distinct and installed.) *)
Theorem update_auto_advances_without_rebuild (t : tracker)
    (name old new : string) (g : option string) :
  NoDup (keys (versions t)) ->
  (forall n d, In (n, d) (versions t) ->
               dmem n (installed_packages t) = true) ->
  In (name, (old, new, "auto", g)) (versions t) ->
  exists t', update_auto t = (Ok tt, t') /\
    version <$> dget name (installed_packages t') = Some new.
Proof.
  intros Hnd Hin Hd. unfold update_auto.
  destruct (update_auto_loop (versions t) t Hnd Hin) as (t' & E & _ & _ & New).
  exists t'. split; [done|]. by apply (New name old new g).
Qed.

(** Scenario E: [check_updates] yields the one descriptor
    (1.0, 2.0, auto, core); [update_auto] then records 2.0 and logs a
    success. *)
Example update_auto_scenario_E :
  exists t1 t2,
    check_updates scenario_E
      = (Ok [("pkg", ("1.0", "2.0", "auto", Some "core"))], t1) /\
    update_auto t1 = (Ok tt, t2) /\
    version <$> dget "pkg" (installed_packages t2) = Some "2.0" /\
    log_file t2 = ["Updating pkg: 1.0 → 2.0 (group core)";
                   "pkg updated successfully"].
Proof. do 2 eexists. repeat split. Qed.

Lemma update_auto_advances_without_rebuild_witness :
  exists t', update_auto (check_updates scenario_E).2 = (Ok tt, t') /\
    version <$> dget "pkg" (installed_packages t') = Some "2.0".
Proof.
  apply (update_auto_advances_without_rebuild (check_updates scenario_E).2
           "pkg" "1.0" "2.0" (Some "core")).
  - apply NoDup_singleton.
  - intros n d [H|[]]. injection H as <- <-. reflexivity.
  - left. reflexivity.
Defined.

(** *** Checking for updates *)

Lemma check_updates_loop_spec (manifest : dict Package)
    (items : dict Package) :
  forall acc : dict descriptor,
  NoDup (keys items) ->
  NoDup (keys acc) ->
  NoDup (keys (check_updates_loop manifest items acc)) /\
  forall n, dget n (check_updates_loop manifest items acc) =
    match dget n items with
    | Some _ =>
        match expected_update items manifest n with
        | Some d => Some d
        | None => dget n acc
        end
    | None => dget n acc
    end.
Proof.
  induction items as [|[name pkg] items IH]; intros acc Hnd Hacc; [done|].
  simpl in Hnd.
  apply NoDup_cons in Hnd as [Hname Hnd]. rewrite list_elem_of_In in Hname.
  apply dget_None_not_In in Hname.
  remember (match dget name manifest with
            | Some upstream =>
                if negb (String.eqb (version pkg) (version upstream))
                then dset name (version pkg, version upstream,
                                update_policy upstream, group upstream) acc
                else acc
            | None => acc
            end) as acc' eqn:Hdef.
  assert (Hacc' : NoDup (keys acc')).
  { subst acc'. destruct (dget name manifest); [|done].
    destruct (negb _); [by apply NoDup_keys_dset | done]. }
  assert (Hstep : check_updates_loop manifest ((name, pkg) :: items) acc
                  = check_updates_loop manifest items acc')
    by (by subst acc').
  destruct (IH acc' Hnd Hacc') as [Hk Hg]. rewrite Hstep.
  split; [exact Hk|].
  intros n. rewrite Hg. unfold expected_update. simpl.
  destruct (String.eqb n name) eqn:En.
  - apply String.eqb_eq in En. subst n. rewrite Hname. subst acc'.
    destruct (dget name manifest) as [up|]; [|done].
    destruct (String.eqb (version pkg) (version up)); simpl; [done|].
    apply dget_dset_eq.
  - assert (Hn : dget n acc' = dget n acc).
    { subst acc'. destruct (dget name manifest); [|done].
      destruct (negb _); [|done]. apply dget_dset_ne. intros ->.
      by rewrite String.eqb_refl in En. }
    unfold descriptor in *. by rewrite Hn.
Qed.

Lemma check_updates_spec (t : tracker) :
  NoDup (keys (installed_packages t)) ->
  exists t', check_updates t = (Ok (versions t'), t') /\
    installed_packages t' = installed_packages t /\
    manifest t' = manifest t /\ log_file t' = log_file t /\
    NoDup (keys (versions t')) /\
    forall n, dget n (versions t') =
              expected_update (installed_packages t) (manifest t) n.
Proof.
  intros Hnd.
  exists (mkTracker (installed_packages t) (manifest t)
            (check_updates_loop (manifest t) (installed_packages t) [])
            (log_file t)).
  split; [reflexivity|]. simpl.
  destruct (check_updates_loop_spec (manifest t) (installed_packages t) []
              Hnd (NoDup_nil_2)) as [Hk Hg].
  split_and!; try done. intros n. rewrite Hg. unfold expected_update.
  destruct (dget n (installed_packages t)); [|done].
  by destruct (dget n (manifest t)) as [up|]; [destruct (String.eqb _ _)|].
Qed.

(** X1. [check_updates] reports a descriptor for exactly the installed packages
    that the manifest lists under another version, built from the installed
    version and the manifest entry; it stores the report in [versions] and
    changes nothing else. *)
Theorem check_updates_reports_version_mismatches (t : tracker) :
  NoDup (keys (installed_packages t)) ->
  exists t', check_updates t = (Ok (versions t'), t') /\
    installed_packages t' = installed_packages t /\
    manifest t' = manifest t /\ log_file t' = log_file t /\
    NoDup (keys (versions t')) /\
    forall n, dget n (versions t') =
              expected_update (installed_packages t) (manifest t) n.
Proof. apply check_updates_spec. Qed.

Lemma check_updates_reports_version_mismatches_witness :
  exists t', check_updates scenario_E = (Ok (versions t'), t') /\
    dget "pkg" (versions t') = Some ("1.0", "2.0", "auto", Some "core").
Proof.
  destruct (check_updates_reports_version_mismatches scenario_E)
    as (t' & E & _ & _ & _ & _ & Hg).
  - apply NoDup_singleton.
  - exists t'. split; [exact E|]. rewrite Hg. reflexivity.
Defined.

(** *** The update loops *)

Section selective_update.
Variable sel : descriptor -> bool.
Variable body : string * descriptor -> prog tracker unit.

Hypothesis body_skip : forall n d t,
  sel d = false -> body (n, d) t = (Ok tt, t).

Hypothesis body_hit : forall n d t pkg,
  sel d = true -> dget n (installed_packages t) = Some pkg ->
  exists t', body (n, d) t = (Ok tt, t') /\
    installed_packages t'
      = dset n (set_version pkg (new_version d)) (installed_packages t) /\
    manifest t' = manifest t /\ versions t' = versions t.

Hypothesis body_miss : forall n d t,
  sel d = true -> dget n (installed_packages t) = None ->
  exists t', body (n, d) t = (Raise (KeyError n), t') /\
    installed_packages t' = installed_packages t.

Lemma selective_loop (items : dict descriptor) :
  forall t : tracker,
  NoDup (keys items) ->
  (forall n d, In (n, d) items -> sel d = true ->
               dmem n (installed_packages t) = true) ->
  exists t', for_each items body t = (Ok tt, t') /\
    manifest t' = manifest t /\ versions t' = versions t /\
    keys (installed_packages t') = keys (installed_packages t) /\
    forall n, dget n (installed_packages t')
              = updated sel items (installed_packages t) n.
Proof.
  induction items as [|[name d] items IH]; intros t Hnd Hin.
  - by exists t.
  - simpl in Hnd. apply NoDup_cons in Hnd as [Hname Hnd].
    rewrite list_elem_of_In in Hname. apply dget_None_not_In in Hname.
    destruct (sel d) eqn:Hsel.
    + pose proof (Hin name d (or_introl eq_refl) Hsel) as Hmem.
      unfold dmem in Hmem.
      destruct (dget name (installed_packages t)) as [pkg|] eqn:Hpkg; [|done].
      destruct (body_hit name d t pkg Hsel Hpkg) as (t1 & E1 & I1 & M1 & V1).
      destruct (IH t1 Hnd) as (t' & E2 & M2 & V2 & K2 & G2).
      { intros n d' Hd' Hs. rewrite I1, dmem_dset.
        rewrite (Hin n d' (or_intror Hd') Hs). apply orb_true_r. }
      exists t'. simpl. rewrite (bind_Ok _ _ _ _ _ E1).
      split_and!; try congruence.
      * rewrite K2, I1. apply keys_dset_mem. unfold dmem. by rewrite Hpkg.
      * intros n. rewrite G2. unfold updated. simpl. rewrite I1.
        destruct (String.eqb n name) eqn:En.
        -- apply String.eqb_eq in En. subst n.
           by rewrite Hname, Hsel, dget_dset_eq, Hpkg.
        -- rewrite dget_dset_ne; [done|]. intros ->.
           by rewrite String.eqb_refl in En.
    + destruct (IH t Hnd) as (t' & E2 & M2 & V2 & K2 & G2).
      { intros n d' Hd' Hs. apply (Hin n d'); [by right | done]. }
      exists t'. simpl. rewrite (bind_Ok _ _ _ _ _ (body_skip name d t Hsel)).
      split_and!; try done.
      intros n. rewrite G2. unfold updated. simpl.
      destruct (String.eqb n name) eqn:En; [|done].
      apply String.eqb_eq in En. subst n. by rewrite Hname, Hsel.
Qed.

(** The loop stops at the first selected descriptor whose package is not
    installed: those before it are applied, those after it are not. *)
Lemma selective_loop_missing (pre post : dict descriptor) (n : string)
    (d : descriptor) (t : tracker) :
  NoDup (keys pre) ->
  (forall m d', In (m, d') pre -> sel d' = true ->
                dmem m (installed_packages t) = true) ->
  sel d = true -> dget n (installed_packages t) = None ->
  exists t', for_each (pre ++ (n, d) :: post) body t
             = (Raise (KeyError n), t') /\
    forall m, dget m (installed_packages t')
              = updated sel pre (installed_packages t) m.
Proof.
  intros Hnd Hin Hsel Hn.
  destruct (selective_loop pre t Hnd Hin) as (t1 & E1 & _ & _ & K1 & G1).
  assert (Hn1 : dget n (installed_packages t1) = None).
  { apply dget_None_not_In. rewrite K1. by apply dget_None_not_In. }
  destruct (body_miss n d t1 Hsel Hn1) as (t' & E2 & I2).
  exists t'. rewrite for_each_app, (bind_Ok _ _ _ _ _ E1). simpl.
  rewrite (bind_Raise _ _ _ _ _ E2). split; [done|].
  intros m. by rewrite I2.
Qed.

End selective_update.

Lemma update_auto_body_skip (n : string) (d : descriptor) (t : tracker) :
  is_auto d = false -> update_auto_body (n, d) t = (Ok tt, t).
Proof.
  destruct d as [[[old new] policy] g]. unfold is_auto, update_auto_body.
  simpl. by intros ->.
Qed.

Lemma update_auto_body_hit (n : string) (d : descriptor) (t : tracker)
    (pkg : Package) :
  is_auto d = true -> dget n (installed_packages t) = Some pkg ->
  exists t', update_auto_body (n, d) t = (Ok tt, t') /\
    installed_packages t'
      = dset n (set_version pkg (new_version d)) (installed_packages t) /\
    manifest t' = manifest t /\ versions t' = versions t.
Proof.
  destruct d as [[[old new] policy] g]. unfold is_auto. simpl.
  intros Hp Hg. apply String.eqb_eq in Hp. subst policy.
  destruct (update_auto_body_auto t n old new g pkg Hg) as (t' & E & I & V).
  exists t'. split_and!; try done.
  revert E. unfold update_auto_body. simpl.
  unfold bind, log, modify, assign_version. simpl. rewrite Hg. simpl.
  by intros [= <-].
Qed.

Lemma update_auto_body_miss (n : string) (d : descriptor) (t : tracker) :
  is_auto d = true -> dget n (installed_packages t) = None ->
  exists t', update_auto_body (n, d) t = (Raise (KeyError n), t') /\
    installed_packages t' = installed_packages t.
Proof.
  destruct d as [[[old new] policy] g]. unfold is_auto. simpl.
  intros Hp Hg. unfold update_auto_body. rewrite Hp.
  unfold bind, log, modify, assign_version. simpl. rewrite Hg.
  eexists. split; [reflexivity | done].
Qed.

Lemma update_group_body_skip (group_name n : string) (d : descriptor)
    (t : tracker) :
  in_group_auto group_name d = false ->
  update_group_body group_name (n, d) t = (Ok tt, t).
Proof.
  destruct d as [[[old new] policy] g].
  unfold in_group_auto, update_group_body. simpl. by intros ->.
Qed.

Lemma update_group_body_hit (group_name n : string) (d : descriptor)
    (t : tracker) (pkg : Package) :
  in_group_auto group_name d = true ->
  dget n (installed_packages t) = Some pkg ->
  exists t', update_group_body group_name (n, d) t = (Ok tt, t') /\
    installed_packages t'
      = dset n (set_version pkg (new_version d)) (installed_packages t) /\
    manifest t' = manifest t /\ versions t' = versions t.
Proof.
  destruct d as [[[old new] policy] g].
  unfold in_group_auto, update_group_body. simpl. intros -> Hg.
  unfold bind, log, modify, assign_version. simpl. rewrite Hg. simpl.
  eexists. split; [reflexivity|]. done.
Qed.

Lemma update_group_body_miss (group_name n : string) (d : descriptor)
    (t : tracker) :
  in_group_auto group_name d = true ->
  dget n (installed_packages t) = None ->
  exists t', update_group_body group_name (n, d) t
             = (Raise (KeyError n), t') /\
    installed_packages t' = installed_packages t.
Proof.
  destruct d as [[[old new] policy] g].
  unfold in_group_auto, update_group_body. simpl. intros -> Hg.
  unfold bind, log, modify, assign_version. simpl. rewrite Hg.
  eexists. split; [reflexivity | done].
Qed.

Lemma versions_installed (t t1 : tracker) (n : string) (d : descriptor) :
  NoDup (keys (versions t1)) ->
  (forall m, dget m (versions t1)
             = expected_update (installed_packages t) (manifest t) m) ->
  In (n, d) (versions t1) -> dmem n (installed_packages t) = true.
Proof.
  intros Hnd Hg Hin. apply (In_dget _ _ _ Hnd) in Hin.
  rewrite Hg in Hin. unfold expected_update in Hin. unfold dmem.
  by destruct (dget n (installed_packages t)).
Qed.

(** X2. [update_auto] returns when every descriptor with policy auto names an
    installed package, and then it has changed exactly the version of those
    packages, to the version their descriptor announces: every other
    record, the key order of the dictionary, the manifest and the
    descriptors are unchanged. *)
Theorem update_auto_changes_only_auto_versions (t : tracker) :
  NoDup (keys (versions t)) ->
  (forall n d, In (n, d) (versions t) -> is_auto d = true ->
               dmem n (installed_packages t) = true) ->
  exists t', update_auto t = (Ok tt, t') /\
    manifest t' = manifest t /\ versions t' = versions t /\
    keys (installed_packages t') = keys (installed_packages t) /\
    forall n, dget n (installed_packages t')
              = updated is_auto (versions t) (installed_packages t) n.
Proof.
  intros Hnd Hin. unfold update_auto.
  apply (selective_loop is_auto update_auto_body); try done.
  - apply update_auto_body_skip.
  - apply update_auto_body_hit.
Qed.

Lemma update_auto_changes_only_auto_versions_witness :
  exists t', update_auto (check_updates sample_tracker).2 = (Ok tt, t') /\
    version <$> dget "alpha" (installed_packages t') = Some "2.0" /\
    version <$> dget "beta" (installed_packages t') = Some "3.0" /\
    version <$> dget "gamma" (installed_packages t') = Some "0.9".
Proof.
  destruct (update_auto_changes_only_auto_versions
              (check_updates sample_tracker).2) as (t' & E & _ & _ & _ & G).
  - apply (bool_decide_unpack _). vm_compute. exact I.
  - intros n d [H|[H|[]]] _; injection H as <- <-; reflexivity.
  - exists t'. split; [exact E|]. rewrite !G. repeat split; reflexivity.
Defined.

(** X3. [update_group] does the same for the descriptors that have the given
    group and policy auto: a descriptor of another group, or of the group
    but with policy notify, leaves its package as it is. *)
Theorem update_group_changes_only_group_auto_versions (group_name : string)
    (t : tracker) :
  NoDup (keys (versions t)) ->
  (forall n d, In (n, d) (versions t) -> in_group_auto group_name d = true ->
               dmem n (installed_packages t) = true) ->
  exists t', update_group group_name t = (Ok tt, t') /\
    manifest t' = manifest t /\ versions t' = versions t /\
    keys (installed_packages t') = keys (installed_packages t) /\
    forall n, dget n (installed_packages t')
              = updated (in_group_auto group_name) (versions t)
                  (installed_packages t) n.
Proof.
  intros Hnd Hin. unfold update_group.
  apply (selective_loop (in_group_auto group_name)
           (update_group_body group_name)); try done.
  - apply update_group_body_skip.
  - apply update_group_body_hit.
Qed.

Lemma update_group_changes_only_group_auto_versions_witness :
  exists t', update_group "desktop" (check_updates sample_tracker).2
             = (Ok tt, t') /\
    version <$> dget "alpha" (installed_packages t') = Some "1.0" /\
    version <$> dget "beta" (installed_packages t') = Some "3.0".
Proof.
  destruct (update_group_changes_only_group_auto_versions "desktop"
              (check_updates sample_tracker).2) as (t' & E & _ & _ & _ & G).
  - apply (bool_decide_unpack _). vm_compute. exact I.
  - intros n d [H|[H|[]]] _; injection H as <- <-; reflexivity.
  - exists t'. split; [exact E|]. rewrite !G. repeat split; reflexivity.
Defined.

(** X4. [update_auto] stops with [KeyError] at the first descriptor with policy
    auto whose package is not installed: the descriptors before it have been
    applied, the ones after it have not. *)
Theorem update_auto_missing_package_raises (t : tracker)
    (pre post : dict descriptor) (n : string) (d : descriptor) :
  versions t = pre ++ (n, d) :: post ->
  NoDup (keys pre) ->
  (forall m d', In (m, d') pre -> is_auto d' = true ->
                dmem m (installed_packages t) = true) ->
  is_auto d = true -> dget n (installed_packages t) = None ->
  exists t', update_auto t = (Raise (KeyError n), t') /\
    forall m, dget m (installed_packages t')
              = updated is_auto pre (installed_packages t) m.
Proof.
  intros Hv Hnd Hin Hsel Hn. unfold update_auto. rewrite Hv.
  apply (selective_loop_missing is_auto update_auto_body); try done.
  - apply update_auto_body_skip.
  - apply update_auto_body_hit.
  - apply update_auto_body_miss.
Qed.

Lemma update_auto_missing_package_raises_witness :
  exists t', update_auto stale_tracker = (Raise (KeyError "ghost"), t') /\
    version <$> dget "alpha" (installed_packages t') = Some "2.0" /\
    version <$> dget "gamma" (installed_packages t') = Some "0.9".
Proof.
  destruct (update_auto_missing_package_raises stale_tracker
              [("alpha", ("1.0", "2.0", "auto", Some "core"))]
              [("gamma", ("0.9", "1.0", "auto", None))]
              "ghost" ("1.0", "1.1", "auto", None)) as (t' & E & G).
  - reflexivity.
  - apply NoDup_singleton.
  - intros m d' [H|[]] _. injection H as <- <-. reflexivity.
  - reflexivity.
  - reflexivity.
  - exists t'. split; [exact E|]. rewrite !G. split; reflexivity.
Defined.

(** X5. Checking, updating and checking again: the second report holds the
    descriptors of the first one whose policy is not auto, and nothing
    else. *)
Theorem check_updates_after_update_auto (t : tracker) :
  NoDup (keys (installed_packages t)) ->
  exists t1 t2 t3,
    check_updates t = (Ok (versions t1), t1) /\
    update_auto t1 = (Ok tt, t2) /\
    check_updates t2 = (Ok (versions t3), t3) /\
    forall n, dget n (versions t3) =
      match dget n (versions t1) with
      | Some d => if is_auto d then None else Some d
      | None => None
      end.
Proof.
  intros Hnd.
  destruct (check_updates_spec t Hnd) as (t1 & E1 & I1 & M1 & _ & N1 & G1).
  destruct (selective_loop is_auto update_auto_body update_auto_body_skip
              update_auto_body_hit (versions t1) t1 N1)
    as (t2 & E2 & M2 & V2 & K2 & G2).
  { intros n d Hin _. rewrite I1. by apply (versions_installed t t1 n d). }
  destruct (check_updates_spec t2) as (t3 & E3 & _ & _ & _ & _ & G3).
  { by rewrite K2, I1. }
  exists t1, t2, t3. split_and!; try done.
  intros n. rewrite G3. unfold expected_update. rewrite G2, M2, M1.
  unfold updated. rewrite G1, I1. unfold expected_update.
  destruct (dget n (installed_packages t)) as [pkg|]; [|done].
  destruct (dget n (manifest t)) as [up|]; [|done].
  destruct (String.eqb (version pkg) (version up)) eqn:Ev; simpl.
  - by rewrite Ev.
  - unfold is_auto. simpl.
    destruct (String.eqb (update_policy up) "auto"); simpl.
    + by rewrite String.eqb_refl.
    + by rewrite Ev.
Qed.

Lemma check_updates_after_update_auto_witness :
  exists t1 t2 t3,
    check_updates sample_tracker = (Ok (versions t1), t1) /\
    update_auto t1 = (Ok tt, t2) /\
    check_updates t2 = (Ok (versions t3), t3) /\
    dget "alpha" (versions t3) = None /\
    dget "beta" (versions t3) = Some ("3.0", "3.1", "notify", Some "desktop").
Proof.
  destruct (check_updates_after_update_auto sample_tracker)
    as (t1 & t2 & t3 & E1 & E2 & E3 & G).
  - apply (bool_decide_unpack _). vm_compute. exact I.
  - exists t1, t2, t3. split; [exact E1|]. split; [exact E2|].
    split; [exact E3|].
    assert (Ht1 : t1 = (check_updates sample_tracker).2) by (by rewrite E1).
    rewrite !G, Ht1. split; reflexivity.
Defined.

(** X6. [notify] never raises and changes nothing but the log, to which it adds
    one notice for each descriptor with policy notify, in dictionary
    order. *)
Theorem notify_only_logs (t : tracker) :
  exists t', notify t = (Ok tt, t') /\
    installed_packages t' = installed_packages t /\
    manifest t' = manifest t /\ versions t' = versions t /\
    log_file t' = log_file t ++
      map notice
        (List.filter (fun item => String.eqb (policy_of item.2) "notify")
           (versions t)).
Proof.
  unfold notify.
  assert (H : forall items t0, exists t',
    for_each items notify_body t0 = (Ok tt, t') /\
    installed_packages t' = installed_packages t0 /\
    manifest t' = manifest t0 /\ versions t' = versions t0 /\
    log_file t' = log_file t0 ++
      map notice
        (List.filter (fun item => String.eqb (policy_of item.2) "notify")
           items)).
  { induction items as [|[n [[[old new] policy] g]] items IH]; intros t0.
    - exists t0. simpl. by rewrite app_nil_r.
    - cbn [for_each List.filter policy_of snd]. unfold bind at 1.
      cbn [notify_body]. destruct (String.eqb policy "notify") eqn:Hp.
      + destruct (IH (mkTracker (installed_packages t0) (manifest t0)
                        (versions t0)
                        (log_file t0 ++ [notice (n, (old, new, policy, g))])))
          as (t' & E & I & M & V & L).
        exists t'. unfold log, modify. cbn [map].
        simpl in *. rewrite L, <- app_assoc. done.
      + destruct (IH t0) as (t' & E & I & M & V & L).
        exists t'. simpl. done. }
  apply H.
Qed.

(** *** The loaded records *)

Lemma last_version_In (name v : string) (lines : list string) :
  last_version name lines = Some v ->
  exists line rest, In line lines /\ fields line = name :: v :: rest.
Proof.
  induction lines as [|line lines IH]; simpl; [done|].
  destruct (last_version name lines) as [v'|].
  - intros [= ->]. destruct IH as (l & r & Hl & Hf); [done|].
    exists l, r. split; [by right | done].
  - destruct (fields line) as [|n [|v0 rest]] eqn:Hf; try done.
    destruct (String.eqb n name) eqn:En; [|done].
    apply String.eqb_eq in En. subst n. intros [= ->].
    exists line, rest. split; [by left | done].
Qed.

(** X7. Every record that [load_installed_packages] returns is stored under its
    own name, has an empty url, no use flags, policy notify and no group,
    and its name and version are non-empty and free of whitespace. *)
Theorem load_installed_packages_records (db : option string)
    (pkgs : dict Package) (n : string) (p : Package) :
  load_installed_packages db = Ok pkgs -> dget n pkgs = Some p ->
  p = installed_record n (version p) /\
  n <> "" /\ no_space n /\ version p <> "" /\ no_space (version p).
Proof.
  intros Hload Hget.
  assert (Hl : load_lines [] (db_lines db) = Ok pkgs) by (by destruct db).
  destruct (load_lines_spec (db_lines db) []) as (pkgs' & E & G).
  rewrite Hl in E. injection E as <-. rewrite G in Hget.
  destruct (last_version n (db_lines db)) as [v|] eqn:Hv; [|done].
  injection Hget as <-. split; [done|]. simpl.
  destruct (last_version_In n v _ Hv) as (line & rest & _ & Hf).
  unfold fields in Hf.
  destruct (split_fields (strip line) n) as [Hn1 Hn2];
    [rewrite Hf; by left|].
  destruct (split_fields (strip line) v) as [Hv1 Hv2];
    [rewrite Hf; right; by left|].
  done.
Qed.

Lemma load_installed_packages_records_witness :
  exists p, dget "zlib" [("zlib", installed_record "zlib" "1.3")] = Some p /\
    p = installed_record "zlib" (version p) /\ no_space (version p).
Proof.
  exists (installed_record "zlib" "1.3"). split; [reflexivity|].
  destruct (load_installed_packages_records (Some sample_db)
              [("zlib", installed_record "zlib" "1.3")] "zlib"
              (installed_record "zlib" "1.3"))
    as (H1 & _ & _ & _ & H2).
  - vm_compute. reflexivity.
  - reflexivity.
  - split; [exact H1 | exact H2].
Defined.

End tracker_facts.

(** ** gbuild.py *)

Section gbuild_facts.
Import Py PyDict Gbuild.

#[local] Instance same_pacotes_refl : Reflexive same_pacotes.
Proof. by intros g. Qed.

#[local] Instance same_pacotes_trans : Transitive same_pacotes.
Proof. intros g1 g2 g3 H1 H2. unfold same_pacotes in *. congruence. Qed.

Lemma print_returns (line : string) : returns same_pacotes (print line).
Proof. by apply returns_modify. Qed.

Lemma executar_hooks_returns (cmds : list string) :
  returns same_pacotes (executar_hooks cmds).
Proof.
  apply returns_for_each; try apply _. intros cmd. apply print_returns.
Qed.

(** [rodar_testes] only prints: it returns normally whatever the test
    declares. *)
Lemma rodar_testes_returns (t : Testes) : returns same_pacotes (rodar_testes t).
Proof.
  unfold rodar_testes. apply returns_bind; [apply _ | apply print_returns |].
  intros _. destruct (required t); [apply print_returns|].
  apply returns_ret, _.
Qed.

(** C3. For every recipe, in particular one that declares a required test,
    and for every choice of the flags, [instalar_pacote] returns normally
    and the database then holds an entry for the recipe's name with its
    version: the declared test command is never run, so that its failure
    cannot prevent the registration. *)
Theorem instalar_pacote_always_registers (receita : Receita)
    (usar_binario rodar : bool) (jobs : Z) (agora : Q) (g : Gerenciador) :
  exists g', instalar_pacote receita usar_binario rodar jobs agora g = (Ok tt, g') /\
    dget (nome receita) (pacotes g') =
      Some (mkPacoteInstalado (nome receita) (versao receita)
                              (flags_use receita) agora).
Proof.
  assert (H : returns
    (fun _ g' => dget (nome receita) (pacotes g') =
       Some (mkPacoteInstalado (nome receita) (versao receita)
               (flags_use receita) agora))
    (instalar_pacote receita usar_binario rodar jobs agora)).
  { unfold instalar_pacote.
    apply (returns_bind_post same_pacotes); [apply print_returns | intros _].
    apply (returns_bind_post same_pacotes);
      [apply executar_hooks_returns | intros _].
    apply (returns_bind_post same_pacotes).
    - repeat first
        [ apply print_returns | apply executar_hooks_returns
        | apply rodar_testes_returns
        | apply returns_ret; apply _ | apply returns_gets; apply _
        | apply returns_bind; [apply _ | | intros ?]
        | match goal with
          | |- returns _ (if ?b then _ else _) => destruct b
          | |- returns _ (match ?o with _ => _ end) => destruct o
          end ].
    - intros _.
      apply (returns_bind_post same_pacotes);
        [apply executar_hooks_returns | intros _].
      apply returns_modify. intros g0. simpl. apply dget_dset_eq. }
  destruct (H g) as ([] & g' & E & Hg'). by exists g'.
Qed.

(** The example run of the script: firefox, with its required test and with
    tests requested, ends up registered. *)
Example instalar_firefox_registers :
  exists g', instalar_pacote receita_firefox false true 8 0%Q new_Gerenciador
             = (Ok tt, g') /\
    pacote_versao <$> dget "firefox" (pacotes g') = Some "118.0" /\
    In "[TESTES] Falha bloqueia instalação" (stdout g').
Proof.
  eexists. split; [reflexivity|]. split; [reflexivity|].
  simpl. tauto.
Qed.

(** *** The exact effect of an installation *)

Lemma put_lines_put_lines (a b : list string) (g : Gerenciador) :
  put_lines b (put_lines a g) = put_lines (a ++ b) g.
Proof. unfold put_lines. simpl. by rewrite app_assoc. Qed.

Lemma put_lines_nil (g : Gerenciador) : put_lines [] g = g.
Proof. destruct g. unfold put_lines. simpl. by rewrite app_nil_r. Qed.

Lemma print_exact (line : string) (g : Gerenciador) :
  print line g = (Ok tt, put_lines [line] g).
Proof. reflexivity. Qed.

Lemma executar_hooks_exact (cmds : list string) (g : Gerenciador) :
  executar_hooks cmds g = (Ok tt, put_lines (hook_lines cmds) g).
Proof.
  unfold executar_hooks. revert g.
  induction cmds as [|cmd cmds IH]; intros g; simpl.
  - by rewrite put_lines_nil.
  - rewrite (bind_Ok _ _ _ _ _ (print_exact _ g)), IH.
    by rewrite put_lines_put_lines.
Qed.

Lemma rodar_testes_exact (t : Testes) (g : Gerenciador) :
  rodar_testes t g = (Ok tt, put_lines (test_lines t) g).
Proof.
  unfold rodar_testes, test_lines.
  rewrite (bind_Ok _ _ _ _ _ (print_exact _ g)).
  destruct (required t).
  - by rewrite print_exact, put_lines_put_lines.
  - unfold ret. done.
Qed.

Lemma instalar_pacote_exact (receita : Receita) (usar_binario rodar : bool)
    (jobs : Z) (agora : Q) (g : Gerenciador) :
  instalar_pacote receita usar_binario rodar jobs agora g =
    (Ok tt,
     mkGerenciador (dset (nome receita) (registro receita agora) (pacotes g))
       (sandbox g) (grupos g)
       (stdout g ++ install_lines receita usar_binario rodar jobs
                      (path_install (sandbox g)))).
Proof.
  unfold instalar_pacote, install_lines, bind, print, modify, gets, ret,
    registrar_pacote, registro.
  destruct (usar_binario && binario_disponivel receita);
    [|destruct (testes receita) as [t|]; [destruct rodar|]];
    repeat first [ rewrite executar_hooks_exact
                 | rewrite rodar_testes_exact
                 | progress cbn beta iota ];
    unfold put_lines; cbn [pacotes sandbox grupos stdout];
    rewrite <- ?app_assoc; reflexivity.
Qed.

(** X8. [registrar_pacote] is an upsert by name: afterwards the name is bound to
    the given record, every other name is bound as before, the name is
    appended to the key order only if it is new, and a dictionary without
    repeated names stays so. *)
Theorem registrar_pacote_upsert (pkg : PacoteInstalado) (g : Gerenciador) :
  exists g', registrar_pacote pkg g = (Ok tt, g') /\
    dget (pacote_nome pkg) (pacotes g') = Some pkg /\
    (forall n, n <> pacote_nome pkg ->
               dget n (pacotes g') = dget n (pacotes g)) /\
    keys (pacotes g') =
      (if dmem (pacote_nome pkg) (pacotes g) then keys (pacotes g)
       else keys (pacotes g) ++ [pacote_nome pkg]) /\
    (NoDup (keys (pacotes g)) -> NoDup (keys (pacotes g'))) /\
    sandbox g' = sandbox g /\ grupos g' = grupos g /\ stdout g' = stdout g.
Proof.
  eexists. split; [reflexivity|]. simpl. split_and!; try done.
  - apply dget_dset_eq.
  - intros n Hn. apply dget_dset_ne. congruence.
  - apply keys_dset.
  - apply NoDup_keys_dset.
Qed.

(** X9. [instalar_pacote] always returns; it changes the record of the recipe's
    name, to the recipe's version and flags and the time of the call, and
    the printed output, and nothing else: every other record, the sandbox
    and the groups are as before. *)
Theorem instalar_pacote_touches_one_record (receita : Receita)
    (usar_binario rodar : bool) (jobs : Z) (agora : Q) (g : Gerenciador) :
  exists g',
    instalar_pacote receita usar_binario rodar jobs agora g = (Ok tt, g') /\
    pacotes g' = dset (nome receita) (registro receita agora) (pacotes g) /\
    (forall n, n <> nome receita ->
               dget n (pacotes g') = dget n (pacotes g)) /\
    (NoDup (keys (pacotes g)) -> NoDup (keys (pacotes g'))) /\
    sandbox g' = sandbox g /\ grupos g' = grupos g.
Proof.
  rewrite instalar_pacote_exact. eexists. split; [reflexivity|]. simpl.
  split_and!; try done.
  - intros n Hn. apply dget_dset_ne. congruence.
  - apply NoDup_keys_dset.
Qed.

(** X10. With a binary requested and available, [instalar_pacote] prints the
    pre_download and post_install hooks around the binary notice and
    nothing else: the declared test and the post_build hooks are not run. *)
Theorem instalar_pacote_binary_output (receita : Receita) (rodar : bool)
    (jobs : Z) (agora : Q) (g : Gerenciador) :
  binario_disponivel receita = true ->
  exists g',
    instalar_pacote receita true rodar jobs agora g = (Ok tt, g') /\
    stdout g' = stdout g
      ++ ["[INFO] Instalando pacote: " +:+ nome receita]
      ++ hook_lines (pre_download (hooks receita))
      ++ ["[INFO] Instalando binário pré-compilado de " +:+ nome receita]
      ++ hook_lines (post_install (hooks receita)).
Proof.
  intros Hb. rewrite instalar_pacote_exact. eexists.
  split; [reflexivity|]. simpl. unfold install_lines.
  by rewrite Hb.
Qed.

Lemma instalar_pacote_binary_output_witness :
  exists g',
    instalar_pacote receita_firefox true true 8 0%Q new_Gerenciador
      = (Ok tt, g') /\
    stdout g' = ["[INFO] Instalando pacote: firefox";
                 "[INFO] Instalando binário pré-compilado de firefox"].
Proof.
  destruct (instalar_pacote_binary_output receita_firefox true 8 0%Q
              new_Gerenciador) as (g' & E & Hout).
  - reflexivity.
  - exists g'. split; [exact E|]. rewrite Hout. reflexivity.
Defined.

Lemma filter_hook_lines (cmds : list string) :
  List.filter is_hook_line (hook_lines cmds) = hook_lines cmds.
Proof.
  induction cmds as [|cmd cmds IH]; [done|].
  unfold hook_lines in *. cbn [map List.filter]. rewrite IH.
  reflexivity.
Qed.

Lemma filter_test_lines (t : Testes) :
  List.filter is_hook_line (test_lines t) = [].
Proof. unfold test_lines. by destruct (required t). Qed.

(** X11. The hooks that [instalar_pacote] executes are those of pre_download,
    then, unless the binary is installed, those of post_build, then those of
    post_install, each list in its order: the pre_build and post_remove
    hooks of a recipe are never executed. *)
Theorem instalar_pacote_hooks_executed (receita : Receita)
    (usar_binario rodar : bool) (jobs : Z) (agora : Q) (g : Gerenciador) :
  exists g' printed,
    instalar_pacote receita usar_binario rodar jobs agora g = (Ok tt, g') /\
    stdout g' = stdout g ++ printed /\
    List.filter is_hook_line printed =
      hook_lines (pre_download (hooks receita)
                  ++ (if usar_binario && binario_disponivel receita
                      then [] else post_build (hooks receita))
                  ++ post_install (hooks receita)).
Proof.
  rewrite instalar_pacote_exact. eexists. eexists.
  split; [reflexivity|]. split; [reflexivity|].
  assert (Htests : List.filter is_hook_line
                     match testes receita with
                     | Some t => if rodar then test_lines t else []
                     | None => []
                     end = []).
  { destruct (testes receita) as [t|]; [destruct rodar|]; try done.
    apply filter_test_lines. }
  unfold install_lines.
  destruct (usar_binario && binario_disponivel receita);
    rewrite ?List.filter_app, ?filter_hook_lines, ?Htests;
    repeat match goal with
           | |- context [List.filter is_hook_line (?x :: ?l)] =>
               change (List.filter is_hook_line (x :: l))
                 with (List.filter is_hook_line l)
           end;
    cbn [List.filter app]; unfold hook_lines;
    rewrite ?app_nil_r, ?map_app; reflexivity.
Qed.

(** *** Groups *)

Lemma instalar_membros_spec (usar_binario rodar : bool) (jobs : Z)
    (relogio : nat -> Q) (membros : list string) :
  forall (k : nat) (g : Gerenciador),
  exists g',
    instalar_membros membros usar_binario rodar jobs relogio k g
      = (Ok tt, g') /\
    sandbox g' = sandbox g /\ grupos g' = grupos g /\
    (forall n, ~ In n membros -> dget n (pacotes g') = dget n (pacotes g)) /\
    (forall m, In m membros ->
       exists i, dget m (pacotes g')
                 = Some (mkPacoteInstalado m "" [] (relogio i))).
Proof.
  induction membros as [|m membros IH]; intros k g; simpl.
  - exists g. split_and!; try done.
  - rewrite (bind_Ok _ _ _ _ _ (instalar_pacote_exact _ _ _ _ _ _)).
    destruct (IH (S k)
      (mkGerenciador
         (dset (nome (receita_de_membro m))
            (registro (receita_de_membro m) (relogio k)) (pacotes g))
         (sandbox g) (grupos g)
         (stdout g ++ install_lines (receita_de_membro m) usar_binario rodar
                        jobs (path_install (sandbox g)))))
      as (g' & E & S' & G' & Out & Mem).
    exists g'. simpl in *. split_and!; try done.
    + intros n Hn. rewrite Out by tauto. apply dget_dset_ne.
      intros ->. tauto.
    + intros n [->|Hn].
      * destruct (In_dec string_dec n membros) as [Hin|Hout];
          [by apply Mem|].
        exists k. rewrite Out by done. apply dget_dset_eq.
      * by apply Mem.
Qed.

(** X12. [instalar_grupo] on a name that is not a group prints the error line and
    returns, leaving the database as it is. *)
Theorem instalar_grupo_unknown (nome_grupo : string) (usar_binario rodar : bool)
    (jobs : Z) (relogio : nat -> Q) (g : Gerenciador) :
  dget nome_grupo (grupos g) = None ->
  instalar_grupo nome_grupo usar_binario rodar jobs relogio g =
    (Ok tt, put_lines ["[ERRO] Grupo " +:+ nome_grupo +:+ " não encontrado"] g).
Proof.
  intros H. unfold instalar_grupo, bind, gets. by rewrite H.
Qed.

Lemma instalar_grupo_unknown_witness :
  instalar_grupo "base" false true 8 (fun _ => 0%Q) new_Gerenciador =
    (Ok tt, put_lines ["[ERRO] Grupo base não encontrado"] new_Gerenciador).
Proof.
  apply (instalar_grupo_unknown "base" false true 8 (fun _ => 0%Q)
           new_Gerenciador).
  reflexivity.
Defined.

(** X13. [instalar_grupo] on a group registers every member under an empty
    version and without flags, replacing the record a member had, and leaves
    the records of all other packages as they are. *)
Theorem instalar_grupo_registers_members (nome_grupo : string)
    (usar_binario rodar : bool) (jobs : Z) (relogio : nat -> Q)
    (g : Gerenciador) (grupo : Grupo) :
  dget nome_grupo (grupos g) = Some grupo ->
  exists g',
    instalar_grupo nome_grupo usar_binario rodar jobs relogio g
      = (Ok tt, g') /\
    (forall m, In m (pacotes_do_grupo grupo) ->
       exists i, dget m (pacotes g')
                 = Some (mkPacoteInstalado m "" [] (relogio i))) /\
    (forall n, ~ In n (pacotes_do_grupo grupo) ->
               dget n (pacotes g') = dget n (pacotes g)) /\
    sandbox g' = sandbox g /\ grupos g' = grupos g.
Proof.
  intros H. unfold instalar_grupo.
  rewrite (bind_Ok _ _ g (Some grupo) g) by (unfold gets; by rewrite H).
  rewrite (bind_Ok _ _ _ _ _ (print_exact _ g)).
  destruct (instalar_membros_spec usar_binario rodar jobs relogio
              (pacotes_do_grupo grupo) 0
              (put_lines ["[INFO] Instalando grupo: " +:+ nome_grupo] g))
    as (g' & E & S' & G' & Out & Mem).
  exists g'. split_and!; try done.
Qed.

Lemma instalar_grupo_registers_members_witness :
  exists g',
    instalar_grupo "base" false true 8 (fun _ : nat => 0%Q)
      (definir_grupo grupo_base
         (instalar_pacote receita_firefox true true 8 0%Q new_Gerenciador).2)
      = (Ok tt, g') /\
    pacote_versao <$> dget "glibc" (pacotes g') = Some "" /\
    pacote_versao <$> dget "firefox" (pacotes g') = Some "118.0".
Proof.
  destruct (instalar_grupo_registers_members "base" false true 8
              (fun _ : nat => 0%Q)
              (definir_grupo grupo_base
                 (instalar_pacote receita_firefox true true 8 0%Q
                    new_Gerenciador).2) grupo_base)
    as (g' & E & Mem & Out & _).
  - reflexivity.
  - exists g'. split; [exact E|]. split.
    + destruct (Mem "glibc") as [i Hi]; [simpl; tauto|].
      rewrite Hi. reflexivity.
    + rewrite Out; [reflexivity|].
      simpl. intros H. repeat (destruct H as [H|H]; [discriminate H|]).
      exact H.
Defined.

(** X14. [remover_pacote] and [rollback_pacote] only print: a package that was
    installed is still registered, with the same version, after its removal
    and after a rollback to another version. *)
Theorem remover_pacote_keeps_record (receita : Receita)
    (usar_binario rodar : bool) (jobs : Z) (agora : Q) (versao_antiga : string)
    (g : Gerenciador) :
  exists g1 g2 g3,
    instalar_pacote receita usar_binario rodar jobs agora g = (Ok tt, g1) /\
    remover_pacote (nome receita) g1 = (Ok tt, g2) /\
    rollback_pacote (nome receita) versao_antiga g2 = (Ok tt, g3) /\
    pacotes g2 = pacotes g1 /\ pacotes g3 = pacotes g1 /\
    dget (nome receita) (pacotes g3) = Some (registro receita agora).
Proof.
  rewrite instalar_pacote_exact.
  do 3 eexists. split; [reflexivity|]. split; [reflexivity|].
  split; [reflexivity|]. simpl. split_and!; try done.
  apply dget_dset_eq.
Qed.

(** [configurar_sandbox] names both paths after the recipe, exports the
    install path as SANDBOX, leaves the database alone, and configuring
    twice for the same recipe is the same as configuring once. *)
Theorem configurar_sandbox_paths (receita : Receita) (g : Gerenciador) :
  exists g',
    configurar_sandbox receita g = (Ok tt, g') /\
    path_build (sandbox g') = "/tmp/pm-sandbox/build/" +:+ nome receita /\
    path_install (sandbox g') = "/tmp/pm-sandbox/install/" +:+ nome receita /\
    dget "SANDBOX" (sandbox_env (sandbox g'))
      = Some (path_install (sandbox g')) /\
    pacotes g' = pacotes g /\ grupos g' = grupos g /\
    configurar_sandbox receita g' = (Ok tt, g').
Proof.
  eexists. split; [reflexivity|]. simpl. split_and!; try done.
  - apply dget_dset_eq.
  - unfold configurar_sandbox, modify. simpl. by rewrite dset_dset.
Qed.

End gbuild_facts.

(** ** difflib *)

Section difflib_facts.
Import Py Difflib.







End difflib_facts.

(** ** gbuild1.0.py: the /etc reconciler *)

Section etc_facts.
Import Py PyDict Etc.

Lemma backup_file_Some (st : etc_state) (f c : string) :
  live st !! f = Some c -> backup_file f st = (Ok tt, backed_up f c st).
Proof.
  intros H. unfold backup_file, bind, now, read_live, modify, gets, log.
  simpl. rewrite H. reflexivity.
Qed.

Lemma process_file_absent (st : etc_state) (f c : string) (auto : bool) :
  live st !! f = None -> dget f (etc_new st) = Some c ->
  process_file f auto st =
    (Ok tt, mkEtc (ETC_DIR st) (<[f := c]> (live st)) (etc_new st) (backups st)
                  (clock st) (ticks st)
                  (logs st ++ [("OK", "Installed new config: " +:+ f)])).
Proof.
  intros Hl Hn. unfold process_file, bind, exists_live, gets. simpl.
  rewrite Hl. simpl.
  unfold copy_new_to_live, bind, read_new, write_live, set_live, modify, log.
  rewrite Hn. reflexivity.
Qed.

Lemma process_file_same (st : etc_state) (f c : string) (auto : bool) :
  live st !! f = Some c -> dget f (etc_new st) = Some c ->
  process_file f auto st = (Ok tt, st).
Proof.
  intros Hl Hn. unfold process_file, bind, exists_live, gets. simpl.
  rewrite Hl. simpl.
  unfold filecmp, bind, read_live, read_new, ret. rewrite Hl, Hn.
  by rewrite String.eqb_refl.
Qed.

Lemma process_file_differs (st : etc_state) (f c c' : string) (auto : bool) :
  live st !! f = Some c -> dget f (etc_new st) = Some c' -> c <> c' ->
  process_file f auto st = apply_rule (select_rule f) f auto (backed_up f c st).
Proof.
  intros Hl Hn Hne. unfold process_file, bind, exists_live, gets. simpl.
  rewrite Hl. simpl.
  unfold filecmp, bind, read_live, read_new, ret. rewrite Hl, Hn.
  destruct (String.eqb c c') eqn:E; [apply String.eqb_eq in E; done|].
  by rewrite (backup_file_Some _ _ _ Hl).
Qed.

Lemma select_rule_cases (f : string) :
  (select_rule f = "merge" /\ endswith_any f [".conf"; ".cfg"] = true) \/
  (select_rule f = "keep-local" /\ endswith_any f [".conf"; ".cfg"] = false).
Proof.
  unfold select_rule. destruct (endswith_any f [".conf"; ".cfg"]); auto.
Qed.

(** The merge rule is chosen exactly for the names that end in .conf or
    .cfg. *)
Lemma select_rule_merge_iff (f : string) :
  select_rule f = "merge" <->
  exists stem, f = stem +:+ ".conf" \/ f = stem +:+ ".cfg".
Proof.
  unfold select_rule, endswith_any. simpl. rewrite orb_false_r.
  destruct (endswith f ".conf") eqn:E1; simpl.
  - apply endswith_spec in E1 as [stem ->]. split; [eauto | done].
  - destruct (endswith f ".cfg") eqn:E2.
    + apply endswith_spec in E2 as [stem ->]. split; [eauto | done].
    + split; [done|]. intros [stem [->| ->]].
      * assert (endswith (stem +:+ ".conf") ".conf" = true)
          by (apply endswith_spec; eauto). congruence.
      * assert (endswith (stem +:+ ".cfg") ".cfg" = true)
          by (apply endswith_spec; eauto). congruence.
Qed.

Lemma apply_rule_keep_local (st : etc_state) (f : string) (auto : bool) :
  apply_rule "keep-local" f auto st =
    (Ok tt, mkEtc (ETC_DIR st) (live st) (etc_new st) (backups st) (clock st)
                  (ticks st) (logs st ++ [("OK", "Kept local: " +:+ f)])).
Proof. reflexivity. Qed.

Lemma apply_rule_replace (st : etc_state) (f c' : string) (auto : bool) :
  dget f (etc_new st) = Some c' ->
  apply_rule "replace" f auto st =
    (Ok tt, mkEtc (ETC_DIR st) (<[f := c']> (live st)) (etc_new st)
                  (backups st) (clock st) (ticks st)
                  (logs st ++ [("OK", "Replaced: " +:+ f)])).
Proof.
  intros Hn. unfold apply_rule. simpl.
  unfold copy_new_to_live, bind, read_new, write_live, set_live, modify, log.
  by rewrite Hn.
Qed.

Lemma apply_rule_merge (st : etc_state) (f c c' : string) (auto : bool) :
  live st !! f = Some c -> dget f (etc_new st) = Some c' ->
  apply_rule "merge" f auto st =
    (Ok tt,
     if negb (bool_decide (Difflib.unified_diff (readlines c) (readlines c')
                             "local" "new" = [])) && auto
     then mkEtc (ETC_DIR st) (<[f := merged_content c c']> (live st))
                (etc_new st) (backups st) (clock st) (ticks st)
                (logs st ++ [("OK", "Merged automatically: " +:+ f)])
     else st).
Proof.
  intros Hl Hn. unfold apply_rule. simpl.
  unfold merge_files, bind, read_live, read_new, ret. rewrite Hl, Hn.
  destruct (negb _ && auto); reflexivity.
Qed.



(** C1. On a live [app.conf] holding [a=1] whose new-tree version holds
    [a=2], [process_file] with [auto] on takes the merge branch, saves the
    old content as a backup and then leaves the live file empty: neither the
    new-tree change nor the prior local content is in it.  The unified diff
    is replayed with [restore], which keeps only lines that start with two
    blanks or with a dash and a blank. *)
Theorem process_file_merge_demo_empties_live_file :
  exists st', process_file "app.conf" true merge_demo = (Ok tt, st') /\
    select_rule "app.conf" = "merge" /\
    live st' !! "app.conf" = Some "" /\
    backups st' !! ("20240101_000000", "app.conf") = Some ("a=1" +:+ nl) /\
    logs st' = [("OK", "Backup created: /mnt/stage3/etc/app.conf");
                ("OK", "Merged automatically: app.conf")].
Proof.
  eexists. split; [vm_compute; reflexivity|].
  repeat split; vm_compute; reflexivity.
Qed.

(** With a shared indented line the rewritten file is that line alone,
    short of one leading blank. *)
Example process_file_merge_demo_indented :
  exists st', process_file "app.conf" true merge_demo_indented = (Ok tt, st') /\
    live st' !! "app.conf" = Some (" indented" +:+ nl).
Proof.
  eexists. split; [vm_compute; reflexivity|]. vm_compute. reflexivity.
Qed.

(** C7. When the live content of a file differs from its new-tree content,
    [process_file] first runs [backup_file], which stores the live content
    under the current timestamp and leaves the live tree alone, and only
    then applies the rule, on the state that already holds the backup;
    whichever rule is applied (merge, keep-local, replace or any other
    string) the backup is still there afterwards, and under keep-local the
    live tree is unchanged. *)
Theorem process_file_backup_before_rule (st : etc_state) (f local new : string)
    (auto : bool) :
  live st !! f = Some local -> dget f (etc_new st) = Some new -> local <> new ->
  exists st_b,
    backup_file f st = (Ok tt, st_b) /\
    live st_b = live st /\
    backups st_b !! (clock st (ticks st), f) = Some local /\
    process_file f auto st = apply_rule (select_rule f) f auto st_b /\
    (forall rule,
       backups (apply_rule rule f auto st_b).2 !! (clock st (ticks st), f)
         = Some local /\
       (rule = "keep-local" ->
        (apply_rule rule f auto st_b).1 = Ok tt /\
        live (apply_rule rule f auto st_b).2 = live st)).
Proof.
  intros Hl Hn Hne. exists (backed_up f local st).
  split; [by apply backup_file_Some|]. split; [done|].
  split; [simpl; by rewrite lookup_insert_eq|].
  split; [by apply (process_file_differs _ _ _ new)|].
  intros rule. split.
  - destruct (decide (rule = "keep-local")) as [->|H1];
      [rewrite apply_rule_keep_local; simpl; by rewrite lookup_insert_eq|].
    destruct (decide (rule = "replace")) as [->|H2];
      [rewrite (apply_rule_replace _ _ new) by done; simpl;
       by rewrite lookup_insert_eq|].
    destruct (decide (rule = "merge")) as [->|H3].
    + rewrite (apply_rule_merge _ _ local new) by done.
      destruct (negb _ && auto); simpl; by rewrite lookup_insert_eq.
    + unfold apply_rule.
      rewrite !(proj2 (String.eqb_neq _ _)) by done.
      simpl. by rewrite lookup_insert_eq.
  - intros ->. by rewrite apply_rule_keep_local.
Qed.

Lemma process_file_backup_before_rule_witness :
  exists st_b,
    backup_file "motd" keep_demo = (Ok tt, st_b) /\
    backups st_b !! ("20240101_000000", "motd") = Some ("hi" +:+ nl) /\
    process_file "motd" true keep_demo = apply_rule "keep-local" "motd" true st_b /\
    live (process_file "motd" true keep_demo).2 = live keep_demo.
Proof.
  destruct (process_file_backup_before_rule keep_demo "motd"
              ("hi" +:+ nl) ("hello" +:+ nl) true)
    as (st_b & Hb & _ & Hbk & Hp & Hrule).
  - reflexivity.
  - reflexivity.
  - discriminate.
  - exists st_b. split; [exact Hb|]. split; [exact Hbk|].
    split; [exact Hp|]. rewrite Hp.
    exact (proj2 (proj2 (Hrule "keep-local") eq_refl)).
Defined.

(** C9. The rule chosen for a file name is merge when the name ends in
    .conf or .cfg and keep-local otherwise, hence never replace; and
    whatever the state, [process_file] never writes the log line of the
    replace branch. *)
Theorem process_file_never_replaces (f : string) :
  ((select_rule f = "merge" /\
    exists stem, f = stem +:+ ".conf" \/ f = stem +:+ ".cfg") \/
   (select_rule f = "keep-local" /\
    ~ exists stem, f = stem +:+ ".conf" \/ f = stem +:+ ".cfg"))
  /\ select_rule f <> "replace"
  /\ forall (auto : bool) (st : etc_state),
       exists added,
         logs (process_file f auto st).2 = logs st ++ added /\
         ~ In ("OK", "Replaced: " +:+ f) added.
Proof.
  split.
  { destruct (select_rule_cases f) as [[Hr _]|[Hr _]].
    - left. split; [done|]. by apply select_rule_merge_iff.
    - right. split; [done|]. rewrite <- select_rule_merge_iff, Hr. done. }
  split; [by destruct (select_rule_cases f) as [[-> _]|[-> _]]|].
  intros auto st.
  destruct (live st !! f) as [c|] eqn:Hl; destruct (dget f (etc_new st)) as [c'|] eqn:Hn.
  - destruct (decide (c = c')) as [->|Hne].
    + rewrite (process_file_same _ _ _ _ Hl Hn). exists [].
      rewrite app_nil_r. split; [done | by intros []].
    + rewrite (process_file_differs _ _ _ _ _ Hl Hn Hne).
      destruct (select_rule_cases f) as [[-> _]|[-> _]].
      * rewrite (apply_rule_merge _ _ c c'); [|done|done].
        destruct (negb _ && auto); simpl.
        -- eexists. rewrite <- app_assoc. split; [reflexivity|].
           simpl. intros [H|[H|[]]]; discriminate.
        -- eexists. split; [reflexivity|]. simpl. intros [H|[]]; discriminate.
      * rewrite apply_rule_keep_local. simpl.
        eexists. rewrite <- app_assoc. split; [reflexivity|].
        simpl. intros [H|[H|[]]]; discriminate.
  - exists []. rewrite app_nil_r. split; [|by intros []].
    unfold process_file, bind, exists_live, gets. simpl. rewrite Hl. simpl.
    unfold filecmp, bind, read_live, read_new. by rewrite Hl, Hn.
  - rewrite (process_file_absent _ _ _ _ Hl Hn). simpl.
    eexists. split; [reflexivity|]. simpl. intros [H|[]]; discriminate.
  - exists []. rewrite app_nil_r. split; [|by intros []].
    unfold process_file, bind, exists_live, gets. simpl. rewrite Hl. simpl.
    unfold copy_new_to_live, bind, read_new. by rewrite Hn.
Qed.

(** *** Passes of [process_all] *)

Lemma untouched_refl (g : string) (s : etc_state) : untouched g s s.
Proof. by split. Qed.

Lemma untouched_trans (g : string) (s1 s2 s3 : etc_state) :
  untouched g s1 s2 -> untouched g s2 s3 -> untouched g s1 s3.
Proof.
  intros [H1 H2] [H3 H4]. split; [congruence|].
  intros ts. by rewrite H4.
Qed.

Lemma same_static_trans (s1 s2 s3 : etc_state) :
  same_static s1 s2 -> same_static s2 s3 -> same_static s1 s3.
Proof. unfold same_static. intros (?&?&?) (?&?&?). repeat split; congruence. Qed.

(** One call of [process_file] on a file of the new tree. *)
Lemma process_file_step (s : etc_state) (f c : string) (auto : bool) :
  dget f (etc_new s) = Some c ->
  exists s', process_file f auto s = (Ok tt, s') /\
    same_static s s' /\ ticks s <= ticks s' /\
    (forall g, g <> f -> untouched g s s') /\
    is_Some (live s' !! f) /\
    match live s !! f with
    | None => live s' !! f = Some c
    | Some l =>
        if decide (l = c) then s' = s
        else ticks s' = S (ticks s) /\
             backups s' !! (clock s (ticks s), f) = Some l /\
             (select_rule f = "keep-local" -> live s' = live s)
    end.
Proof.
  intros Hn. destruct (live s !! f) as [l|] eqn:Hl.
  - destruct (decide (l = c)) as [->|Hne].
    + exists s. rewrite (process_file_same _ _ _ _ Hl Hn).
      repeat split; try done; by rewrite Hl.
    + rewrite (process_file_differs _ _ _ _ _ Hl Hn Hne).
      assert (Hfr : forall g ts, g <> f ->
                <[(clock s (ticks s), f) := l]> (backups s) !! (ts, g)
                = backups s !! (ts, g)).
      { intros g ts Hg. apply lookup_insert_ne. congruence. }
      destruct (select_rule_cases f) as [[-> _]|[-> _]].
      * rewrite (apply_rule_merge _ _ l c); [|done|done].
        destruct (negb _ && auto); eexists; (split; [reflexivity|]); simpl;
          repeat split; simpl; try done; try lia;
          first [ by rewrite lookup_insert_ne
                | by rewrite lookup_insert_eq
                | by rewrite Hl
                | intros ts; by apply Hfr ].
      * rewrite apply_rule_keep_local. eexists. split; [reflexivity|]. simpl.
        repeat split; simpl; try done; try lia;
          first [ by rewrite lookup_insert_eq
                | by rewrite Hl
                | intros ts; by apply Hfr ].
  - rewrite (process_file_absent _ _ _ _ Hl Hn). eexists.
    split; [reflexivity|]. simpl.
    repeat split; simpl; try done;
      first [ by rewrite lookup_insert_ne | by rewrite lookup_insert_eq ].
Qed.

(** A run of [process_file] over files of the new tree. *)
Lemma for_each_process_file (auto : bool) (fs : list string) :
  forall s : etc_state,
  (forall f, In f fs -> is_Some (dget f (etc_new s))) ->
  exists s', for_each fs (fun f => process_file f auto) s = (Ok tt, s') /\
    same_static s s' /\ ticks s <= ticks s' /\
    (forall g, ~ In g fs -> untouched g s s') /\
    (forall g, is_Some (live s !! g) -> live s !! g = dget g (etc_new s) ->
               untouched g s s') /\
    (forall g, select_rule g = "keep-local" -> is_Some (live s !! g) ->
               live s' !! g = live s !! g) /\
    (forall g, In g fs \/ is_Some (live s !! g) -> is_Some (live s' !! g)) /\
    (NoDup fs -> forall g l c, In g fs -> live s !! g = Some l ->
       dget g (etc_new s) = Some c -> l <> c ->
       exists k, ticks s <= k < ticks s' /\
                 backups s' !! (clock s k, g) = Some l).
Proof.
  induction fs as [|f fs IH]; intros s Hin.
  - exists s. simpl. repeat split; try done.
    by intros g [[]|H].
  - destruct (Hin f (or_introl eq_refl)) as [c Hc].
    destruct (process_file_step s f c auto Hc)
      as (s1 & E1 & St1 & T1 & Fr1 & Som1 & Cs1).
    pose proof St1 as (Hd1 & Hn1 & Hk1).
    destruct (IH s1) as (s' & E2 & St2 & T2 & Out2 & Id2 & Kl2 & Som2 & Bk2).
    { intros g Hg. rewrite Hn1. apply Hin. by right. }
    exists s'. simpl. rewrite (bind_Ok _ _ _ _ _ E1).
    split; [done|]. split; [by eapply same_static_trans|].
    split; [lia|].
    assert (Hlive1 : forall g, is_Some (live s !! g) ->
              select_rule g = "keep-local" \/ live s !! g = dget g (etc_new s)
              \/ g <> f ->
              live s1 !! g = live s !! g).
    { intros g [l Hl] Hcase. destruct (decide (g = f)) as [->|Hgf];
        [|by apply Fr1].
      rewrite Hl in Cs1. destruct (decide (l = c)) as [->|Hne]; [by subst|].
      destruct Cs1 as (_ & _ & Hkeep).
      destruct Hcase as [Hr|[Hid|Hgf]]; [by rewrite Hkeep| |done].
      rewrite Hl, Hc in Hid. congruence. }
    split_and!.
    + intros g Hg. eapply untouched_trans; [apply Fr1|apply Out2]; intros ?;
        apply Hg; [by left; subst | by right].
    + intros g Hs Hid. eapply untouched_trans; [|apply Id2].
      * destruct (decide (g = f)) as [->|Hgf]; [|by apply Fr1].
        destruct Hs as [l Hl]. rewrite Hl in Cs1.
        rewrite Hl, Hc in Hid. injection Hid as ->.
        rewrite decide_True in Cs1 by done. subst s1. apply untouched_refl.
      * rewrite Hlive1; auto.
      * rewrite Hlive1, Hn1; auto.
    + intros g Hr Hs. rewrite Kl2; [auto|done|rewrite Hlive1; auto].
    + intros g Hg. apply Som2.
      destruct (decide (g = f)) as [->|Hgf]; [by right|].
      destruct Hg as [[Heq|Hg]|Hs]; [congruence|by left|].
      right. rewrite Hlive1; auto.
    + intros Hnd g l c0 Hg Hl Hc0 Hne.
      apply NoDup_cons in Hnd as [Hf Hnd].
      rewrite list_elem_of_In in Hf.
      destruct (decide (g = f)) as [->|Hgf].
      * rewrite Hl in Cs1. rewrite Hc in Hc0. injection Hc0 as <-.
        rewrite decide_False in Cs1 by done.
        destruct Cs1 as (Ht & Hb & _).
        exists (ticks s). split; [lia|].
        destruct (Out2 f Hf) as [_ Hb2]. by rewrite Hb2.
      * destruct Hg as [Heq|Hg]; [congruence|].
        destruct (Bk2 Hnd g l c0) as (k & Hk & Hb); auto.
        { rewrite Hlive1; eauto. }
        { by rewrite Hn1. }
        exists k. split; [lia|]. by rewrite <- Hk1.
Qed.

Lemma process_all_spec (auto : bool) (s : etc_state) :
  exists s', process_all auto s = (Ok tt, s') /\
    same_static s s' /\ ticks s <= ticks s' /\
    (forall g, dget g (etc_new s) = None -> untouched g s s') /\
    (forall g, live s !! g = dget g (etc_new s) -> untouched g s s') /\
    (forall g, select_rule g = "keep-local" -> is_Some (live s !! g) ->
               live s' !! g = live s !! g) /\
    (forall g, is_Some (dget g (etc_new s)) -> is_Some (live s' !! g)) /\
    (NoDup (keys (etc_new s)) -> forall g l c, live s !! g = Some l ->
       dget g (etc_new s) = Some c -> l <> c ->
       exists k, ticks s <= k < ticks s' /\
                 backups s' !! (clock s k, g) = Some l).
Proof.
  destruct (for_each_process_file auto (keys (etc_new s)) s)
    as (s' & E & St & T & Out & Id & Kl & Som & Bk).
  { intros f Hf. by apply dget_keys. }
  assert (Hout : forall g, dget g (etc_new s) = None -> untouched g s s').
  { intros g Hg. apply Out. rewrite <- dget_keys, Hg. by intros [? ?]. }
  exists s'. split_and!; try done.
  - intros g Hg. destruct (live s !! g) as [l|] eqn:Hl.
    + apply Id; [by rewrite Hl | by rewrite Hl].
    + by apply Hout.
  - intros g Hg. apply Som. left. by apply dget_keys.
  - intros Hnd g l c Hl Hc Hne. apply (Bk Hnd g l c); try done.
    apply dget_keys. by rewrite Hc.
Qed.




(** Under the merge rule the second pass may also rewrite the live file
    again. *)
Example process_all_second_pass_rewrites :
  exists st1 st2,
    process_all true merge_demo_indented = (Ok tt, st1) /\
    process_all true st1 = (Ok tt, st2) /\
    live st1 !! "app.conf" = Some (" indented" +:+ nl) /\
    live st2 !! "app.conf" = Some ("indented" +:+ nl).
Proof.
  do 2 eexists. split; [vm_compute; reflexivity|].
  split; [vm_compute; reflexivity|].
  repeat split; vm_compute; reflexivity.
Qed.

(** *** More on [process_file] *)

Lemma process_file_missing_new (st : etc_state) (f : string) (auto : bool) :
  dget f (etc_new st) = None ->
  process_file f auto st
    = (Raise (FileNotFoundError (path_join ETC_NEW_DIR f)), st).
Proof.
  intros Hn. unfold process_file, bind, exists_live, gets. simpl.
  destruct (live st !! f) as [c|] eqn:Hl; simpl.
  - unfold filecmp, bind, read_live, read_new. by rewrite Hl, Hn.
  - unfold copy_new_to_live, bind, read_new. by rewrite Hn.
Qed.

(** The backups after one call: as before, or with the old content of the
    file added under the current timestamp. *)
Lemma process_file_backups (st : etc_state) (f : string) (auto : bool) :
  backups (process_file f auto st).2 = backups st \/
  exists l, live st !! f = Some l /\
    backups (process_file f auto st).2
      = <[(clock st (ticks st), f) := l]> (backups st).
Proof.
  destruct (dget f (etc_new st)) as [c|] eqn:Hn;
    [|left; by rewrite process_file_missing_new].
  destruct (live st !! f) as [l|] eqn:Hl;
    [|left; by rewrite (process_file_absent _ _ _ _ Hl Hn)].
  destruct (decide (l = c)) as [->|Hne];
    [left; by rewrite (process_file_same _ _ _ _ Hl Hn)|].
  right. exists l. split; [done|].
  rewrite (process_file_differs _ _ _ _ _ Hl Hn Hne).
  destruct (select_rule_cases f) as [[-> _]|[-> _]].
  - rewrite (apply_rule_merge _ _ l c); [|done|done].
    by destruct (negb _ && auto).
  - by rewrite apply_rule_keep_local.
Qed.

(** X15. A file that the live tree lacks is installed with the content of the new
    tree: no backup is taken, the clock is not read, and no other file
    changes. *)
Theorem process_file_installs_absent (st : etc_state) (f c : string)
    (auto : bool) :
  live st !! f = None -> dget f (etc_new st) = Some c ->
  exists st', process_file f auto st = (Ok tt, st') /\
    live st' = <[f := c]> (live st) /\
    backups st' = backups st /\ ticks st' = ticks st /\
    logs st' = logs st ++ [("OK", "Installed new config: " +:+ f)].
Proof.
  intros Hl Hn. rewrite (process_file_absent _ _ _ _ Hl Hn).
  eexists. split; [reflexivity|]. done.
Qed.

Lemma process_file_installs_absent_witness :
  exists st', process_file "issue" true mixed_demo = (Ok tt, st') /\
    live st' !! "issue" = Some ("welcome" +:+ nl) /\
    backups st' = ∅.
Proof.
  destruct (process_file_installs_absent mixed_demo "issue"
              ("welcome" +:+ nl) true) as (st' & E & Hl & Hb & _).
  - reflexivity.
  - reflexivity.
  - exists st'. split; [exact E|]. rewrite Hl, Hb. split; reflexivity.
Defined.

(** X16. A live file with the very content of its new-tree counterpart is left
    alone: the whole state, log and backups included, is unchanged. *)
Theorem process_file_identical_is_noop (st : etc_state) (f c : string)
    (auto : bool) :
  live st !! f = Some c -> dget f (etc_new st) = Some c ->
  process_file f auto st = (Ok tt, st).
Proof. apply process_file_same. Qed.

Lemma process_file_identical_is_noop_witness :
  process_file "app.conf" true mixed_demo = (Ok tt, mixed_demo).
Proof.
  apply (process_file_identical_is_noop mixed_demo "app.conf" ("a=1" +:+ nl));
    reflexivity.
Defined.





(** X19. Whatever the outcome, [process_file] leaves every other file and its
    backups alone, removes no file from the live tree and no backup, and
    does not change the new tree. *)
Theorem process_file_frame (st : etc_state) (f : string) (auto : bool) :
  let st' := (process_file f auto st).2 in
  (forall g, g <> f -> untouched g st st') /\
  (forall g, is_Some (live st !! g) -> is_Some (live st' !! g)) /\
  (forall key, is_Some (backups st !! key) -> is_Some (backups st' !! key)) /\
  etc_new st' = etc_new st.
Proof.
  simpl. destruct (dget f (etc_new st)) as [c|] eqn:Hn.
  - destruct (process_file_step st f c auto Hn)
      as (s' & E & (_ & Hnew & _) & _ & Fr & Som & _).
    pose proof (process_file_backups st f auto) as Hb.
    rewrite E in Hb |- *. simpl in *. split_and!; try done.
    + intros g Hg. destruct (decide (g = f)) as [->|Hgf]; [done|].
      destruct (Fr g Hgf) as [-> _]. done.
    + intros key Hk. destruct Hb as [->|(l & _ & ->)]; [done|].
      rewrite lookup_insert. by case_decide.
  - rewrite process_file_missing_new by done. simpl.
    split_and!; try done.
Qed.

(** *** More on [process_all] *)

Lemma for_each_in_sync (auto : bool) (fs : list string) (s : etc_state) :
  (forall f, In f fs -> is_Some (dget f (etc_new s)) /\
                        live s !! f = dget f (etc_new s)) ->
  for_each fs (fun f => process_file f auto) s = (Ok tt, s).
Proof.
  induction fs as [|f fs IH]; intros H; simpl; [done|].
  destruct (H f (or_introl eq_refl)) as [[c Hc] Hl]. rewrite Hc in Hl.
  rewrite (bind_Ok _ _ _ _ _ (process_file_same _ _ _ auto Hl Hc)).
  apply IH. intros g Hg. apply H. by right.
Qed.

Lemma for_each_absent_installed (auto : bool) (fs : list string) :
  forall (s : etc_state) (g c : string),
  (forall f, In f fs -> is_Some (dget f (etc_new s))) ->
  In g fs -> live s !! g = None -> dget g (etc_new s) = Some c ->
  live (for_each fs (fun f => process_file f auto) s).2 !! g = Some c.
Proof.
  induction fs as [|f fs IH]; intros s g c Hin Hg Hl Hc; [done|].
  destruct (Hin f (or_introl eq_refl)) as [cf Hcf].
  destruct (process_file_step s f cf auto Hcf)
    as (s1 & E1 & (_ & Hn1 & _) & _ & Fr1 & _ & Cs1).
  simpl. rewrite (bind_Ok _ _ _ _ _ E1).
  assert (Hin1 : forall f0, In f0 fs -> is_Some (dget f0 (etc_new s1))).
  { intros f0 Hf0. rewrite Hn1. apply Hin. by right. }
  destruct (decide (g = f)) as [->|Hgf].
  - rewrite Hl in Cs1. rewrite Hc in Hcf. injection Hcf as <-.
    destruct (for_each_process_file auto fs s1 Hin1)
      as (s' & E2 & _ & _ & _ & Id2 & _).
    rewrite E2. simpl.
    destruct (Id2 f) as [-> _]; rewrite ?Cs1, ?Hn1; done.
  - destruct Hg as [Heq|Hg]; [congruence|].
    apply IH; try done.
    + destruct (Fr1 g Hgf) as [-> _]. done.
    + by rewrite Hn1.
Qed.




Lemma for_each_partial_sync (auto : bool) (fs : list string) :
  forall s : etc_state,
  (forall g, In g fs -> is_Some (dget g (etc_new s))) ->
  (forall g, live s !! g = None \/ live s !! g = dget g (etc_new s)) ->
  let s' := (for_each fs (fun f => process_file f auto) s).2 in
  backups s' = backups s /\ ticks s' = ticks s /\
  forall g, live s' !! g = None \/ live s' !! g = dget g (etc_new s).
Proof.
  induction fs as [|f fs IH]; intros s Hin Hpart; simpl; [done|].
  destruct (Hin f (or_introl eq_refl)) as [c Hc].
  destruct (Hpart f) as [Hnone|Hsame].
  - rewrite (bind_Ok _ _ _ _ _ (process_file_absent _ _ _ auto Hnone Hc)).
    edestruct (IH (mkEtc (ETC_DIR s) (<[f := c]> (live s)) (etc_new s)
                     (backups s) (clock s) (ticks s)
                     (logs s ++ [("OK", "Installed new config: " +:+ f)])))
      as (Hb & Ht & Hl); simpl; try done.
    + intros g Hg. apply Hin. by right.
    + intros g. destruct (decide (g = f)) as [->|Hgf].
      * right. by rewrite lookup_insert_eq.
      * rewrite lookup_insert_ne by done. apply Hpart.
  - rewrite Hc in Hsame.
    rewrite (bind_Ok _ _ _ _ _ (process_file_same _ _ _ auto Hsame Hc)).
    apply IH; [|done]. intros g Hg. apply Hin. by right.
Qed.

Lemma process_all_in_sync (auto : bool) (s : etc_state) :
  in_sync s -> process_all auto s = (Ok tt, s).
Proof.
  intros Hs. unfold process_all. apply for_each_in_sync.
  intros f Hf. apply dget_keys in Hf as [c Hc].
  rewrite Hc. split; [by eexists | by apply Hs].
Qed.

(** X21. When the live tree already holds every file of the new tree with the
    same content, [process_all] changes nothing at all: no backup, no log
    line, no clock reading. *)
Theorem process_all_in_sync_is_noop (auto : bool) (st : etc_state) :
  in_sync st -> process_all auto st = (Ok tt, st).
Proof. apply process_all_in_sync. Qed.

Lemma process_all_in_sync_is_noop_witness :
  process_all true (EtcManager "stage3" {[ "motd" := "hello" +:+ nl ]}
                      [("motd", "hello" +:+ nl)] ∅ demo_clock)
  = (Ok tt, EtcManager "stage3" {[ "motd" := "hello" +:+ nl ]}
              [("motd", "hello" +:+ nl)] ∅ demo_clock).
Proof.
  apply (process_all_in_sync_is_noop true).
  intros f c H. simpl in H.
  destruct (String.eqb f "motd") eqn:E; [|discriminate H].
  apply String.eqb_eq in E. subst f. injection H as <-. reflexivity.
Defined.

(** X22. A pass over an empty live tree copies the new tree, takes no backup and
    does not read the clock; a second pass then changes nothing at all. *)
Theorem process_all_fresh_tree (auto : bool) (st : etc_state) :
  live st = ∅ ->
  exists st1, process_all auto st = (Ok tt, st1) /\
    (forall f, live st1 !! f = dget f (etc_new st)) /\
    backups st1 = backups st /\ ticks st1 = ticks st /\
    process_all auto st1 = (Ok tt, st1).
Proof.
  intros Hempty.
  destruct (process_all_spec auto st)
    as (st1 & E & (_ & Hn & _) & _ & Out & _ & _ & _ & _).
  assert (Hin : forall f, In f (keys (etc_new st)) ->
                          is_Some (dget f (etc_new st)))
    by (intros f; apply dget_keys).
  assert (Hst1 : st1 = (for_each (keys (etc_new st))
                          (fun f => process_file f auto) st).2)
    by (unfold process_all in E; by rewrite E).
  assert (Hlive : forall f, live st1 !! f = dget f (etc_new st)).
  { intros f. destruct (dget f (etc_new st)) as [c|] eqn:Hc.
    - rewrite Hst1. apply for_each_absent_installed; try done.
      + apply dget_keys. by rewrite Hc.
      + by rewrite Hempty.
    - destruct (Out f Hc) as [-> _]. by rewrite Hempty. }
  destruct (for_each_partial_sync auto (keys (etc_new st)) st Hin)
    as (Hb & Ht & _).
  { intros g. left. by rewrite Hempty. }
  rewrite <- Hst1 in Hb, Ht.
  exists st1. split_and!; try done.
  apply process_all_in_sync. intros f c Hc. rewrite Hlive. by rewrite <- Hn.
Qed.

Lemma process_all_fresh_tree_witness :
  exists st1,
    process_all true (EtcManager "stage3" ∅ (etc_new mixed_demo) ∅ demo_clock)
      = (Ok tt, st1) /\
    live st1 !! "issue" = Some ("welcome" +:+ nl) /\
    backups st1 = ∅ /\
    process_all true st1 = (Ok tt, st1).
Proof.
  destruct (process_all_fresh_tree true
              (EtcManager "stage3" ∅ (etc_new mixed_demo) ∅ demo_clock))
    as (st1 & E & Hl & Hb & _ & E2).
  - reflexivity.
  - exists st1. split; [exact E|]. rewrite Hl, Hb.
    split; [reflexivity|]. split; [reflexivity | exact E2].
Defined.




End etc_facts.

(** ** gbuild1.0.py: builds and stages *)

Section build_facts.
Import Py PyDict Build.
Variable E : env.

(** *** Quiet steps *)

Lemma quiet_ret {A} (a : A) : quiet (ret a).
Proof. intros w. split; [done|]. exists []. by rewrite app_nil_r. Qed.

Lemma quiet_raise {A} (e : exn) : quiet (@raise world A e).
Proof. intros w. split; [done|]. exists []. by rewrite app_nil_r. Qed.

Lemma quiet_gets {A} (f : world -> A) : quiet (gets f).
Proof. intros w. split; [done|]. exists []. by rewrite app_nil_r. Qed.

Lemma quiet_bind {A B} (m : prog world A) (k : A -> prog world B) :
  quiet m -> (forall a, quiet (k a)) -> quiet (bind m k).
Proof.
  intros Hm Hk w. destruct (Hm w) as (Hs1 & added1 & Ev1 & Q1).
  unfold bind. destruct (m w) as [[a|e] w1]; simpl in *.
  - destruct (Hk a w1) as (Hs2 & added2 & Ev2 & Q2). split; [auto|].
    exists (added1 ++ added2). rewrite Ev2, Ev1, app_assoc. split; [done|].
    by rewrite forallb_app, Q1, Q2.
  - split; [done|]. by exists added1.
Qed.

Lemma quiet_for_each {A} (xs : list A) (body : A -> prog world unit) :
  (forall x, quiet (body x)) -> quiet (for_each xs body).
Proof.
  intros Hb. induction xs as [|x xs IH]; simpl.
  - apply quiet_ret.
  - apply quiet_bind; auto.
Qed.

Lemma quiet_log (msg level : string) : quiet (log msg level).
Proof. intros w. split; [done|]. exists []. simpl. by rewrite app_nil_r. Qed.

Lemma quiet_emit (e : event) : silent e = true -> quiet (emit e).
Proof. intros He w. split; [done|]. exists [e]. simpl. by rewrite He. Qed.

Lemma quiet_write_sandbox (rel content : string) :
  quiet (write_sandbox rel content).
Proof.
  intros w. split; [by eexists|]. exists []. simpl. by rewrite app_nil_r.
Qed.

Lemma quiet_read_sandbox (rel : string) : quiet (read_sandbox rel).
Proof.
  intros w. unfold read_sandbox.
  destruct (sandbox w ≫= _); (split; [done|]); exists [];
    by rewrite app_nil_r.
Qed.


Lemma quiet_getfield {V} (k : string) (o : option V) : quiet (getfield k o).
Proof. destruct o; [apply quiet_ret | apply quiet_raise]. Qed.

Lemma quiet_getitem {V} (k : string) (d : dict V) : quiet (getitem k d).
Proof. unfold getitem. destruct (dget k d); [apply quiet_ret | apply quiet_raise]. Qed.

Lemma quiet_run (argv : list string) (cwd : option string) :
  quiet (run E argv cwd).
Proof.
  unfold run. apply quiet_bind; [apply quiet_gets | intros k].
  apply quiet_bind; [by apply quiet_emit | intros _].
  destruct (exit_ok E k argv _); [apply quiet_ret | apply quiet_raise].
Qed.

Lemma quiet_download (url rel : string) : quiet (download E url rel).
Proof.
  unfold download. apply quiet_bind; [apply quiet_log | intros _].
  apply quiet_bind; [apply quiet_gets | intros k].
  apply quiet_bind; [by apply quiet_emit | intros _].
  destruct (curl E k url); [apply quiet_write_sandbox | apply quiet_raise].
Qed.

Lemma quiet_verify_sha256 (rel sum : string) : quiet (verify_sha256 E rel sum).
Proof.
  unfold verify_sha256. apply quiet_bind; [apply quiet_read_sandbox | intros c].
  apply quiet_bind; [apply quiet_log | intros _]. apply quiet_ret.
Qed.

Lemma quiet_extract_tarball (tar_rel dest_rel : string) :
  quiet (extract_tarball E tar_rel dest_rel).
Proof.
  unfold extract_tarball. apply quiet_bind; [apply quiet_log | intros _].
  apply quiet_bind; [apply quiet_read_sandbox | intros c].
  apply quiet_bind; [by apply quiet_emit | intros _].
  destruct (tar_members E c); [|apply quiet_raise].
  apply quiet_for_each. intros m. apply quiet_write_sandbox.
Qed.

Lemma quiet_apply_patch (patch work_dir : string) :
  quiet (apply_patch E patch work_dir).
Proof.
  unfold apply_patch. apply quiet_bind; [apply quiet_log | intros _].
  apply quiet_run.
Qed.

Lemma quiet_build_steps (stage : string) (r : recipe) (work_dir : string) :
  quiet (build_steps E stage r work_dir).
Proof.
  unfold build_steps.
  repeat first
    [ apply quiet_run | apply quiet_ret
    | apply quiet_bind; [|intros ?]
    | match goal with |- quiet (if ?b then _ else _) => destruct b end ].
Qed.

Lemma quiet_update_etc (stage : string) : quiet (update_etc stage).
Proof.
  intros w. unfold update_etc. destruct (Etc.process_all _ _) as [r st'].
  simpl. split; [done|]. exists []. by rewrite app_nil_r.
Qed.

Lemma quiet_run_hooks (stage hook_type package : string) :
  quiet (run_hooks stage hook_type package).
Proof. apply quiet_log. Qed.

(** *** The sandbox along a build *)

Lemma kept_trans (w1 w2 w3 : world) : kept w1 w2 -> kept w2 w3 -> kept w1 w3.
Proof.
  intros (_ & a1 & E1 & N1) (S3 & a2 & E2 & N2). split; [done|].
  exists (a1 ++ a2). rewrite E2, E1, app_assoc. split; [done|].
  intros path Hin. apply in_app_or in Hin as [H|H]; [by apply (N1 path) | by apply (N2 path)].
Qed.

Lemma quiet_keeps {A} (m : prog world A) : quiet m -> keeps m.
Proof.
  intros Hq w Hs. destruct (Hq w) as (Hs' & added & Ev & Q).
  split; [auto|]. exists added. split; [done|].
  intros path Hin. rewrite forallb_forall in Q. by apply Q in Hin.
Qed.

Lemma raise_keeps_bind {A B} (m : prog world A) (k : A -> prog world B) :
  keeps m -> (forall a, raise_keeps (k a)) -> raise_keeps (bind m k).
Proof.
  intros Hm Hk w e w' Hs. specialize (Hm w Hs). unfold bind.
  destruct (m w) as [[a|e1] w1]; simpl in Hm.
  - intros Hr. eapply kept_trans; [exact Hm|].
    apply (Hk a w1 e w'); [by destruct Hm | done].
  - by intros [= <- <-].
Qed.

Lemma raise_keeps_log (msg level : string) : raise_keeps (log msg level).
Proof. by intros w e w' _. Qed.

Lemma clean_sandbox_returns (w : world) :
  exists w', clean_sandbox w = (Ok tt, w') /\ sandbox w' = None /\
    last (logs w') = Some ("OK", "Sandbox cleaned") /\
    calls (events w') = calls (events w).
Proof.
  unfold clean_sandbox, bind, gets, emit, modify, log.
  destruct (sandbox w) as [files|] eqn:Hs; simpl.
  - eexists. split; [reflexivity|]. simpl. split; [done|].
    split; [by rewrite last_snoc|].
    unfold calls. by rewrite omap_app, app_nil_r.
  - eexists. split; [reflexivity|]. simpl. split; [done|].
    by rewrite last_snoc.
Qed.

Lemma raise_keeps_clean_sandbox : raise_keeps clean_sandbox.
Proof.
  intros w e w' _ H. destruct (clean_sandbox_returns w) as (w1 & E1 & _).
  congruence.
Qed.

Lemma raise_keeps_build_verified (stage package : string) (r : recipe)
    (tarball_rel : string) :
  raise_keeps (build_verified E stage package r tarball_rel).
Proof.
  unfold build_verified.
  apply raise_keeps_bind;
    [apply quiet_keeps, quiet_extract_tarball | intros _].
  apply raise_keeps_bind.
  { apply quiet_keeps, quiet_for_each. intros x. apply quiet_apply_patch. }
  intros _.
  apply raise_keeps_bind; [apply quiet_keeps, quiet_build_steps | intros _].
  apply raise_keeps_bind; [apply quiet_keeps, quiet_run_hooks | intros _].
  apply raise_keeps_bind; [apply quiet_keeps, quiet_update_etc | intros _].
  apply raise_keeps_clean_sandbox.
Qed.

Lemma build_package_unfold (stage package : string) (r : recipe) (w : world) :
  build_package E stage package r w =
  after_prepare E stage package r (prepared package w).
Proof. reflexivity. Qed.

Lemma raise_keeps_after_prepare (stage package : string) (r : recipe) :
  raise_keeps (after_prepare E stage package r).
Proof.
  unfold after_prepare.
  apply raise_keeps_bind; [apply quiet_keeps, quiet_getfield | intros u].
  apply raise_keeps_bind; [apply quiet_keeps, quiet_getitem | intros url].
  apply raise_keeps_bind; [apply quiet_keeps, quiet_download | intros _].
  apply raise_keeps_bind; [apply quiet_keeps, quiet_getfield | intros sum].
  apply raise_keeps_bind; [apply quiet_keeps, quiet_verify_sha256 | intros valid].
  destruct valid; simpl;
    [apply raise_keeps_build_verified | apply raise_keeps_log].
Qed.

Lemma ends_released_bind {A} (package : string) (m : prog world A)
    (k : A -> prog world unit) :
  (forall a, ends_released package (k a)) -> ends_released package (bind m k).
Proof.
  intros Hk w w'. unfold bind. destruct (m w) as [[a|e] w1]; [|done].
  apply Hk.
Qed.

Lemma ends_released_after_prepare (stage package : string) (r : recipe) :
  ends_released package (after_prepare E stage package r).
Proof.
  unfold after_prepare.
  do 5 (apply ends_released_bind; intros ?).
  destruct a3; simpl.
  - unfold build_verified. do 5 (apply ends_released_bind; intros ?).
    intros w w' H. right.
    destruct (clean_sandbox_returns w) as (w1 & E1 & Hs & Hl & _).
    rewrite E1 in H. by injection H as <-.
  - intros w w' [= <-]. left. simpl. by rewrite last_snoc.
Qed.

(** *** The checksum gate *)

Lemma download_Some (url rel content : string) (w : world) :
  curl E (length (events w)) url = Some content ->
  download E url rel w = (Ok tt, downloaded url rel content w).
Proof.
  intros H. unfold download, bind, log, modify, gets, emit. simpl.
  by rewrite H.
Qed.

Lemma verify_sha256_read (rel sum content : string) (w : world)
    (files : gmap string string) :
  sandbox w = Some files -> files !! rel = Some content ->
  verify_sha256 E rel sum w =
    (Ok (String.eqb (hexdigest E content) sum),
     add_log ("SHA256 "
              +:+ (if String.eqb (hexdigest E content) sum
                   then "valid" else "invalid")
              +:+ " for " +:+ Etc.path_join SANDBOX_DIR rel) "OK" w).
Proof.
  intros Hs Hf. unfold verify_sha256, bind, read_sandbox. rewrite Hs. simpl.
  by rewrite Hf.
Qed.

(** [after_prepare] up to the test of the checksum. *)
Lemma after_prepare_verified (stage package : string) (r : recipe) (w : world)
    (u : dict string) (url sum content : string) :
  urls r = Some u -> dget "tarball" u = Some url -> sha256 r = Some sum ->
  curl E (length (events w)) url = Some content ->
  let rel := Etc.path_join package (package +:+ ".tar.xz") in
  let w1 := downloaded url rel content w in
  let valid := String.eqb (hexdigest E content) sum in
  let w2 := add_log ("SHA256 " +:+ (if valid then "valid" else "invalid")
                     +:+ " for " +:+ Etc.path_join SANDBOX_DIR rel) "OK" w1 in
  after_prepare E stage package r w =
    if valid then build_verified E stage package r rel w2
    else log ("SHA256 mismatch for " +:+ package) "FAIL" w2.
Proof.
  intros Hu Hurl Hsum Hcurl rel w1 valid w2. unfold after_prepare.
  rewrite Hu, Hsum. simpl.
  rewrite (bind_Ok _ _ w u w) by reflexivity.
  rewrite (bind_Ok _ _ w url w) by (unfold getitem; by rewrite Hurl).
  rewrite (bind_Ok _ _ w tt w1) by (by apply download_Some).
  rewrite (bind_Ok _ _ w1 sum w1) by reflexivity.
  rewrite (bind_Ok _ _ w1 valid w2).
  - by destruct valid.
  - apply (verify_sha256_read _ _ _ _ (<[rel := content]>
             (default ∅ (sandbox w)))); [done|].
    by rewrite lookup_insert_eq.
Qed.

(** C5. When the transfer delivers an artifact whose digest differs from
    the checksum the recipe declares, [build_package] stops at the
    verification: it returns after logging the mismatch as a failure, the
    only events of the attempt are its entry and the transfer, so that no
    build step (extraction, patch, configure, compile, install) ran, and the
    package database and the staged /etc trees are what they were. *)
Theorem build_package_checksum_mismatch (stage package : string) (r : recipe)
    (w : world) (u : dict string) (url sum content : string) :
  urls r = Some u -> dget "tarball" u = Some url -> sha256 r = Some sum ->
  curl E (S (length (events w))) url = Some content ->
  hexdigest E content <> sum ->
  exists w',
    build_package E stage package r w = (Ok tt, w') /\
    last (logs w') = Some ("FAIL", "SHA256 mismatch for " +:+ package) /\
    (exists added, events w' = events w ++ added /\
                   forallb (fun e => negb (is_build_step e)) added = true) /\
    package_db w' = package_db w /\
    stage_etc w' = stage_etc w.
Proof.
  intros Hu Hurl Hsum Hcurl Hne.
  rewrite build_package_unfold.
  rewrite (after_prepare_verified _ _ _ _ u url sum content); try done.
  2:{ unfold prepared. simpl. rewrite length_app. simpl.
      by rewrite Nat.add_1_r. }
  destruct (String.eqb (hexdigest E content) sum) eqn:Heq;
    [apply String.eqb_eq in Heq; done|].
  eexists. split; [reflexivity|]. simpl.
  split; [by rewrite last_snoc|].
  split; [|done].
  eexists. rewrite <- app_assoc. split; [reflexivity|]. reflexivity.
Qed.

(** C6 as the code has it.  A build attempt that raises (failed transfer,
    unreadable archive, failed patch, failed build command, missing recipe
    key) ends with the sandbox still in place and without any tree removed;
    an attempt that returns has either stopped at the checksum mismatch or
    removed the sandbox as its last action. *)
Theorem build_package_sandbox_release (stage package : string) (r : recipe)
    (w : world) :
  match build_package E stage package r w with
  | (Raise _, w') =>
      is_Some (sandbox w') /\
      exists added, events w' = events w ++ added /\
                    forall path, ~ In (Rmtree path) added
  | (Ok _, w') =>
      last (logs w') = Some ("FAIL", "SHA256 mismatch for " +:+ package) \/
      (sandbox w' = None /\ last (logs w') = Some ("OK", "Sandbox cleaned"))
  end.
Proof.
  rewrite build_package_unfold.
  destruct (after_prepare E stage package r (prepared package w))
    as [[[]|e] w'] eqn:Hrun.
  - by apply (ends_released_after_prepare stage package r _ _ Hrun).
  - assert (Hprep : is_Some (sandbox (prepared package w))) by (by eexists).
    destruct (raise_keeps_after_prepare stage package r _ _ _ Hprep Hrun)
      as (Hs & added & Ev & Hno).
    split; [done|]. exists (Call package :: added).
    split; [by rewrite Ev; simpl; rewrite <- app_assoc|].
    intros path [H|H]; [done | by apply (Hno path)].
Qed.

(** *** The builds entered by a stage *)








(** *** What a build leaves alone *)

















(** *** Failures before the verification *)

(** X26. A recipe without a tarball url makes [build_package] raise [KeyError]
    right after the sandbox is prepared: nothing has been transferred. *)
Theorem build_package_missing_url (stage package : string) (r : recipe)
    (w : world) :
  (urls r ≫= dget "tarball") = None ->
  exists key,
    build_package E stage package r w
      = (Raise (KeyError key), prepared package w) /\
    (key = "urls" \/ key = "tarball") /\
    events (prepared package w) = events w ++ [Call package] /\
    is_Some (sandbox (prepared package w)).
Proof.
  intros H. rewrite build_package_unfold. unfold after_prepare.
  destruct (urls r) as [u|] eqn:Hu; simpl in H.
  - exists "tarball". split; [|split; [by right | by split; [|eexists]]].
    simpl. rewrite (bind_Ok _ _ (prepared package w) u (prepared package w))
      by reflexivity.
    apply bind_Raise. unfold getitem. by rewrite H.
  - exists "urls". split; [done|]. split; [by left | by split; [|eexists]].
Qed.

(** X27. A recipe without a checksum makes [build_package] raise [KeyError] only
    after the transfer: the artifact is already in the sandbox. *)
Theorem build_package_missing_checksum (stage package : string) (r : recipe)
    (w : world) (u : dict string) (url content : string) :
  urls r = Some u -> dget "tarball" u = Some url -> sha256 r = None ->
  curl E (S (length (events w))) url = Some content ->
  let rel := Etc.path_join package (package +:+ ".tar.xz") in
  build_package E stage package r w
    = (Raise (KeyError "sha256"),
       downloaded url rel content (prepared package w)) /\
  sandbox (downloaded url rel content (prepared package w))
    ≫= (fun files => files !! rel) = Some content.
Proof.
  intros Hu Hurl Hsum Hcurl rel. split.
  - rewrite build_package_unfold. unfold after_prepare. rewrite Hu, Hsum.
    simpl. rewrite (bind_Ok _ _ (prepared package w) u (prepared package w))
      by reflexivity.
    rewrite (bind_Ok _ _ (prepared package w) url (prepared package w))
      by (unfold getitem; by rewrite Hurl).
    rewrite (bind_Ok _ _ _ tt (downloaded url rel content (prepared package w))).
    + reflexivity.
    + apply download_Some. simpl. rewrite length_app. simpl.
      by rewrite Nat.add_1_r.
  - simpl. by rewrite lookup_insert_eq.
Qed.


(** *** The steps of a build, in order *)

Lemma runs_ret {A} (a : A) : runs [] (ret a).
Proof. intros w Hs. exists a, w. by rewrite app_nil_r. Qed.

Lemma runs_bind {A B} (e1 e2 : list event) (m : prog world A)
    (k : A -> prog world B) :
  runs e1 m -> (forall a, runs e2 (k a)) -> runs (e1 ++ e2) (bind m k).
Proof.
  intros Hm Hk w Hs. destruct (Hm w Hs) as (a & w1 & E1 & Ev1 & S1).
  destruct (Hk a w1 S1) as (b & w2 & E2 & Ev2 & S2).
  exists b, w2. rewrite (bind_Ok _ _ _ _ _ E1).
  split; [done|]. split; [|done]. by rewrite Ev2, Ev1, app_assoc.
Qed.

Lemma runs_for_each {A} (f : A -> event) (xs : list A)
    (body : A -> prog world unit) :
  (forall x, In x xs -> runs [f x] (body x)) ->
  runs (map f xs) (for_each xs body).
Proof.
  induction xs as [|x xs IH]; intros Hb; simpl.
  - apply runs_ret.
  - apply (runs_bind [f x]); [apply Hb; by left|].
    intros _. apply IH. intros y Hy. apply Hb. by right.
Qed.

Lemma runs_log (msg level : string) : runs [] (log msg level).
Proof. intros w Hs. exists tt, (add_log msg level w). by rewrite app_nil_r. Qed.

Lemma runs_run (argv : list string) (cwd : option string) :
  (forall k dir, exit_ok E k argv dir = true) ->
  runs [Exec argv cwd] (run E argv cwd).
Proof.
  intros Hok w Hs. unfold run, bind, gets, emit, modify. simpl.
  rewrite Hok. by eexists _, _.
Qed.

Lemma runs_apply_patch (patch work_dir : string) :
  (forall k dir, exit_ok E k (patch_argv patch) dir = true) ->
  runs [Exec (patch_argv patch) (Some work_dir)] (apply_patch E patch work_dir).
Proof.
  intros Hok. unfold apply_patch.
  apply (runs_bind []); [apply runs_log | intros _]. by apply runs_run.
Qed.



Lemma runs_write_members (dest_rel : string)
    (members : list (string * string)) :
  runs [] (for_each members
             (fun m => write_sandbox (Etc.path_join dest_rel m.1) m.2)).
Proof.
  induction members as [|m members IH]; simpl; [apply runs_ret|].
  apply (runs_bind [] []); [|by intros _].
  intros w Hs. eexists _, _. split; [reflexivity|]. simpl.
  split; [by rewrite app_nil_r | by eexists].
Qed.

Lemma extract_tarball_Some (tar_rel dest_rel content : string)
    (members : list (string * string)) (w : world)
    (files : gmap string string) :
  sandbox w = Some files -> files !! tar_rel = Some content ->
  tar_members E content = Some members ->
  exists w', extract_tarball E tar_rel dest_rel w = (Ok tt, w') /\
    events w' = events w
      ++ [Extract (Etc.path_join SANDBOX_DIR tar_rel)
                  (Etc.path_join SANDBOX_DIR dest_rel)] /\
    is_Some (sandbox w').
Proof.
  intros Hs Hf Hm.
  unfold extract_tarball, bind, log, modify, read_sandbox, emit.
  simpl. rewrite Hs. simpl. rewrite Hf, Hm.
  match goal with
  | |- context [for_each members _ ?w0] =>
      destruct (runs_write_members dest_rel members w0)
        as ([] & w' & E1 & Ev & S1); [simpl; rewrite Hs; by eexists|]
  end.
  exists w'. split; [exact E1|]. split; [|done].
  rewrite Ev. simpl. by rewrite app_nil_r.
Qed.


(** The state in which [build_verified] starts after a transfer of
    [content] that passed the verification. *)
Lemma verified_state (package url content : string) (w : world) :
  let rel := Etc.path_join package (package +:+ ".tar.xz") in
  let w2 := add_log ("SHA256 valid for " +:+ Etc.path_join SANDBOX_DIR rel)
              "OK" (downloaded url rel content (prepared package w)) in
  events w2 = events w ++ [Call package; Exec (curl_argv package url) None] /\
  sandbox w2 = Some (<[rel := content]> (default ∅ (sandbox w))).
Proof. simpl. by rewrite <- app_assoc. Qed.


(** X30. The patches are applied in their declared order and the first one that
    fails ends the build with [CalledProcessError]: the later patches and
    all build commands are not run, and the sandbox stays in place. *)
Theorem build_package_patch_failure (stage package : string) (r : recipe)
    (w : world) (u : dict string) (url sum content bad : string)
    (members : list (string * string)) (applied skipped : list string) :
  urls r = Some u -> dget "tarball" u = Some url -> sha256 r = Some sum ->
  curl E (S (length (events w))) url = Some content ->
  hexdigest E content = sum ->
  tar_members E content = Some members ->
  patches r = Some (applied ++ bad :: skipped) ->
  (forall p k dir, In p applied -> exit_ok E k (patch_argv p) dir = true) ->
  (forall k dir, exit_ok E k (patch_argv bad) dir = false) ->
  exists w',
    build_package E stage package r w
      = (Raise (CalledProcessError (patch_argv bad)), w') /\
    events w' = events w
      ++ fetch_events package url
      ++ patch_events package (applied ++ [bad]) /\
    is_Some (sandbox w').
Proof.
  intros Hu Hurl Hsum Hcurl Hdig Htar Hp Hok Hbad.
  rewrite build_package_unfold.
  rewrite (after_prepare_verified _ _ _ _ u url sum content); try done.
  2:{ unfold prepared. simpl. rewrite length_app. simpl.
      by rewrite Nat.add_1_r. }
  rewrite (proj2 (String.eqb_eq _ _) Hdig).
  destruct (verified_state package url content w) as [Hev Hsb].
  set (w2 := add_log _ _ _) in *.
  unfold build_verified.
  destruct (extract_tarball_Some
              (Etc.path_join package (package +:+ ".tar.xz")) package
              content members w2 _ Hsb (lookup_insert_eq _ _ _) Htar)
    as (w3 & E3 & Ev3 & S3).
  rewrite (bind_Ok _ _ _ _ _ E3). rewrite Hp. simpl.
  destruct (runs_for_each
              (fun p => Exec (patch_argv p)
                          (Some (Etc.path_join SANDBOX_DIR package)))
              applied
              (fun patch => apply_patch E patch
                              (Etc.path_join SANDBOX_DIR package))
              (fun p Hin => runs_apply_patch p _
                              (fun k dir => Hok p k dir Hin)) w3 S3)
    as ([] & w4 & E4 & Ev4 & S4).
  eexists. split.
  - apply bind_Raise. rewrite for_each_app, (bind_Ok _ _ _ _ _ E4). simpl.
    apply bind_Raise. unfold apply_patch, log, run, bind, gets, emit, modify.
    simpl. rewrite Hbad. reflexivity.
  - simpl. rewrite Ev4, Ev3, Hev. split; [|done].
    unfold fetch_events, patch_events. rewrite map_app, <- !app_assoc.
    reflexivity.
Qed.

End build_facts.

Section plan_facts.
Import PyDict Build.

Lemma times_app (p : string) (l1 l2 : list string) :
  times p (l1 ++ l2) = times p l1 + times p l2.
Proof. unfold times. by rewrite filter_app, length_app. Qed.

Lemma times_In (p : string) (l : list string) : In p l -> 1 <= times p l.
Proof.
  intros H. apply list_elem_of_In in H. unfold times.
  assert (Hin : p ∈ filter (fun x => x = p) l) by (by apply list_elem_of_filter).
  destruct (filter (fun x => x = p) l); [by apply not_elem_of_nil in Hin|].
  simpl. lia.
Qed.

Lemma times_entry_own (recipes : dict recipe) (p : string) (r : recipe) :
  1 <= times p (entry_plan recipes (p, r)).
Proof.
  unfold entry_plan. rewrite times_app. simpl. unfold times at 2.
  rewrite filter_cons, decide_True by done. simpl. lia.
Qed.

Lemma times_entry_dep (recipes : dict recipe) (q p : string) (r : recipe) :
  In p (default [] (dependencias_build r)) -> dmem p recipes = true ->
  1 <= times p (filter (fun dep => dmem dep recipes = true)
                       (default [] (dependencias_build r))).
Proof.
  intros Hin Hmem. apply times_In, list_elem_of_In, list_elem_of_filter.
  split; [done | by apply list_elem_of_In].
Qed.

Lemma times_concat_In (p : string) (f : string * recipe -> list string)
    (l : dict recipe) (x : string * recipe) :
  In x l -> times p (f x) <= times p (concat (map f l)).
Proof.
  induction l as [|y l IH]; simpl; [done|].
  rewrite times_app. intros [->|H]; [lia|]. specialize (IH H). lia.
Qed.

Lemma times_concat_In2 (p : string) (f : string * recipe -> list string)
    (l : dict recipe) (x y : string * recipe) :
  In x l -> In y l -> x <> y ->
  times p (f x) + times p (f y) <= times p (concat (map f l)).
Proof.
  induction l as [|z l IH]; simpl; [done|].
  rewrite times_app. intros [->|Hx] [->|Hy] Hne; try done.
  - pose proof (times_concat_In p f l y Hy). lia.
  - pose proof (times_concat_In p f l x Hx). lia.
  - specialize (IH Hx Hy Hne). lia.
Qed.

(** The plan has no memory: a package of the stage that an entry of the
    stage declares as a dependency is entered at least twice. *)
Lemma build_plan_dependency_twice (recipes : dict recipe) (q p : string)
    (rq : recipe) :
  In (q, rq) recipes -> In p (default [] (dependencias_build rq)) ->
  dmem p recipes = true ->
  2 <= times p (build_plan recipes).
Proof.
  intros Hq Hdep Hmem. unfold build_plan.
  assert (Hp : exists rp, In (p, rp) recipes).
  { unfold dmem in Hmem. destruct (dget p recipes) as [rp|] eqn:Hg; [|done].
    exists rp. by apply dget_Some_In. }
  destruct Hp as [rp Hp].
  pose proof (times_entry_dep recipes q p rq Hdep Hmem) as Hd.
  pose proof (times_entry_own recipes p rp) as Ho.
  destruct (decide (q = p)) as [->|Hne].
  - pose proof (times_concat_In p (entry_plan recipes) recipes (p, rq) Hq) as H.
    unfold entry_plan at 1 in H. rewrite times_app in H. simpl in H.
    unfold times at 2 in H.
    rewrite (filter_cons _ p []), decide_True in H by done. simpl in H. lia.
  - assert (Hpair : (q, rq) <> (p, rp)) by congruence.
    pose proof (times_concat_In2 p (entry_plan recipes) recipes
                  (q, rq) (p, rp) Hq Hp Hpair) as H.
    unfold entry_plan at 1 in H. rewrite times_app in H. simpl in H. lia.
Qed.

End plan_facts.

Lemma build_plan_gcc_gmp :
  Build.build_plan Build.gcc_gmp_recipes = ["gmp"; "gcc"; "gmp"].
Proof. reflexivity. Qed.


(** C6 as written fails: when [./configure] exits with a failure
    the build raises and the sandbox, with the downloaded archive, is still
    there. *)
Lemma build_package_configure_failure_keeps_sandbox :
  exists w',
    Build.build_package Build.configure_fails_env "stage3" "zlib"
      (Build.simple_recipe "zlib" "h" []) Build.empty_world
      = (Raise (CalledProcessError ["./configure"]), w') /\
    Build.sandbox w' = Some {[ "zlib/zlib.tar.xz" := "archive" ]} /\
    ~ In (Build.Rmtree Build.SANDBOX_DIR) (Build.events w').
Proof.
  eexists. split; [vm_compute; reflexivity|].
  split; [vm_compute; reflexivity|].
  vm_compute. intros H.
  repeat (destruct H as [H|H]; [discriminate H|]). exact H.
Qed.

(** A build in which every step succeeds removes the sandbox. *)
Example build_package_success_releases :
  exists w',
    Build.build_package Build.ok_env "stage3" "zlib"
      (Build.simple_recipe "zlib" "h" []) Build.empty_world = (Ok tt, w') /\
    Build.sandbox w' = None /\
    last (Build.events w') = Some (Build.Rmtree Build.SANDBOX_DIR).
Proof.
  eexists. split; [vm_compute; reflexivity|].
  split; vm_compute; reflexivity.
Qed.

Lemma build_package_checksum_mismatch_witness :
  exists w',
    Build.build_package Build.ok_env "stage3" "zlib"
      (Build.simple_recipe "zlib" "H" []) Build.empty_world = (Ok tt, w') /\
    last (Build.logs w') = Some ("FAIL", "SHA256 mismatch for zlib") /\
    Build.package_db w' = None /\
    is_Some (Build.sandbox w').
Proof.
  destruct (build_package_checksum_mismatch Build.ok_env "stage3" "zlib"
              (Build.simple_recipe "zlib" "H" []) Build.empty_world
              [("tarball", "https://example.org/zlib.tar.xz")]
              "https://example.org/zlib.tar.xz" "H" "archive")
    as (w' & Hb & Hl & _ & Hdb & _).
  - reflexivity.
  - reflexivity.
  - reflexivity.
  - reflexivity.
  - vm_compute. discriminate.
  - exists w'. split; [exact Hb|]. split; [exact Hl|]. split; [exact Hdb|].
    assert (Hw : w' = (Build.build_package Build.ok_env "stage3" "zlib"
                         (Build.simple_recipe "zlib" "H" [])
                         Build.empty_world).2) by (by rewrite Hb).
    rewrite Hw. vm_compute. by eexists.
Defined.

Lemma build_package_missing_url_witness :
  exists key,
    Build.build_package Build.ok_env "stage3" "zlib" Build.no_url_recipe
      Build.empty_world
      = (Raise (KeyError key), Build.prepared "zlib" Build.empty_world).
Proof.
  destruct (build_package_missing_url Build.ok_env "stage3" "zlib"
              Build.no_url_recipe Build.empty_world) as (key & E1 & _).
  - reflexivity.
  - exists key. exact E1.
Defined.

Lemma build_package_missing_checksum_witness :
  Build.build_package Build.ok_env "stage3" "zlib" Build.no_checksum_recipe
    Build.empty_world
  = (Raise (KeyError "sha256"),
     Build.downloaded "https://example.org/zlib.tar.xz" "zlib/zlib.tar.xz"
       "archive" (Build.prepared "zlib" Build.empty_world)).
Proof.
  apply (build_package_missing_checksum Build.ok_env "stage3" "zlib"
           Build.no_checksum_recipe Build.empty_world
           [("tarball", "https://example.org/zlib.tar.xz")]
           "https://example.org/zlib.tar.xz" "archive"); reflexivity.
Defined.



Lemma build_package_patch_failure_witness :
  exists w',
    Build.build_package Build.patch_fails_env "stage3" "zlib"
      Build.patched_recipe Build.empty_world
      = (Raise (CalledProcessError ["patch"; "-p1"; "-i"; "bad.patch"]), w') /\
    Build.events w' =
      [Build.Call "zlib";
       Build.Exec ["curl"; "-L"; "-o"; "/tmp/pm-sandbox/zlib/zlib.tar.xz";
                   "https://example.org/zlib.tar.xz"] None;
       Build.Extract "/tmp/pm-sandbox/zlib/zlib.tar.xz" "/tmp/pm-sandbox/zlib";
       Build.Exec ["patch"; "-p1"; "-i"; "a.patch"]
                  (Some "/tmp/pm-sandbox/zlib");
       Build.Exec ["patch"; "-p1"; "-i"; "bad.patch"]
                  (Some "/tmp/pm-sandbox/zlib")].
Proof.
  destruct (build_package_patch_failure Build.patch_fails_env "stage3" "zlib"
              Build.patched_recipe Build.empty_world
              [("tarball", "https://example.org/zlib.tar.xz")]
              "https://example.org/zlib.tar.xz" "h" "archive" "bad.patch"
              [] ["a.patch"] ["c.patch"])
    as (w' & E1 & Ev & _); try reflexivity.
  - intros p k dir [<-|[]]. reflexivity.
  - exists w'. split; [exact E1|]. rewrite Ev. reflexivity.
Defined.
